(** * ethereum-rpc: the typed codec layer, embedded and verified

    The development follows the two source files of the package:
    [_rpc.py] (the schema) and [_serialization.py] (the handlers and the
    two registries [STRUCTURER] and [UNSTRUCTURER]).  Python values are
    embedded shallowly: [str] as [string], [int] as [Z], [bytes] as
    [list byte], dictionaries as association lists in insertion order,
    and raising as an explicit three-way outcome. *)

From Stdlib Require Import ZArith NArith List String Ascii Bool Lia.
From Stdlib.Strings Require Import Byte.
Import ListNotations.

Set Warnings "-register-all".

Local Open Scope string_scope.
Local Open Scope list_scope.

(* ================================================================== *)
(** ** Python built-ins used by the handlers *)
(* ================================================================== *)

Module Py.

(** A Python [str] is modelled as a [string] of code points below 256.
    The case functions follow Python on every such character whose
    other case is again below 256: the ASCII letters, and in the
    Latin-1 range U+00C0 to U+00DE against U+00E0 to U+00FE, the signs
    U+00D7 and U+00F7 apart.  So [lower] is [str.lower()] on every
    string of the model.  Three lower-case characters have an upper
    case outside the range (U+00B5, U+00DF and U+00FF, which Python
    turns into U+039C, ["SS"] and U+0178); [to_upper] leaves them as
    they are, and every property of upper-casing below is stated for
    ASCII text, which the schema's identifiers and the hexadecimal
    alphabet are. *)

Definition ord (c : ascii) : N := N_of_ascii c.
Definition chr (n : N) : ascii := ascii_of_N n.

(** The characters that have a lower case. *)
Definition is_upper (c : ascii) : bool :=
  let n := ord c in
  ((65 <=? n)%N && (n <=? 90)%N)
  || ((192 <=? n)%N && (n <=? 222)%N && negb (n =? 215)%N).

(** The characters that have an upper case below 256. *)
Definition is_lower (c : ascii) : bool :=
  let n := ord c in
  ((97 <=? n)%N && (n <=? 122)%N)
  || ((224 <=? n)%N && (n <=? 254)%N && negb (n =? 247)%N).

Definition to_upper (c : ascii) : ascii := if is_lower c then chr (ord c - 32) else c.
Definition to_lower (c : ascii) : ascii := if is_upper c then chr (ord c + 32) else c.

(** [str.lower()]. *)
Fixpoint lower (s : string) : string :=
  match s with
  | EmptyString => EmptyString
  | String c r => String (to_lower c) (lower r)
  end.

(** [str.capitalize()]: first character upper-cased, the rest
    lower-cased. *)
Definition capitalize (s : string) : string :=
  match s with
  | EmptyString => EmptyString
  | String c r => String (to_upper c) (lower r)
  end.

(** [str.startswith(prefix)]. *)
Fixpoint startswith (prefix s : string) : bool :=
  match prefix, s with
  | EmptyString, _ => true
  | String p ps, String c cs => Ascii.eqb p c && startswith ps cs
  | String _ _, EmptyString => false
  end.

(** [s[n:]]. *)
Fixpoint drop (n : nat) (s : string) : string :=
  match n, s with
  | O, _ => s
  | S n', String _ r => drop n' r
  | S _, EmptyString => EmptyString
  end.

(** [str.removesuffix("_")]: one trailing underscore is removed, if any. *)
Fixpoint removesuffix_underscore (s : string) : string :=
  match s with
  | EmptyString => EmptyString
  | String c EmptyString => if Ascii.eqb c "_" then EmptyString else s
  | String c r => String c (removesuffix_underscore r)
  end.

(** [str.split(sep)] for a one-character separator: never empty, and
    adjacent separators give empty segments. *)
Fixpoint split (sep : ascii) (s : string) : list string :=
  match s with
  | EmptyString => [EmptyString]
  | String c r =>
      if Ascii.eqb c sep then EmptyString :: split sep r
      else match split sep r with
           | h :: t => String c h :: t
           | [] => [String c EmptyString]
           end
  end.

(** ["".join(parts)]. *)
Definition join (parts : list string) : string :=
  fold_right String.append EmptyString parts.

(** *** Digits *)

(** [_PyLong_DigitValue]: the value of an alphanumeric character, in any
    base up to 36; letters in either case. *)
Definition digit_value (c : ascii) : option N :=
  let n := ord c in
  if (48 <=? n)%N && (n <=? 57)%N then Some (n - 48)%N
  else if (97 <=? n)%N && (n <=? 122)%N then Some (n - 87)%N
  else if (65 <=? n)%N && (n <=? 90)%N then Some (n - 55)%N
  else None.

Definition hex_value (c : ascii) : option N :=
  match digit_value c with
  | Some d => if (d <? 16)%N then Some d else None
  | None => None
  end.

(** The lower-case hexadecimal digit of a value below 16. *)
Definition hexdigit (d : N) : ascii :=
  if (d <? 10)%N then chr (48 + d) else chr (87 + d).

(** *** [hex(n)] *)

Fixpoint hex_digits_fuel (fuel : nat) (n : N) (acc : string) : string :=
  match fuel with
  | O => acc
  | S fuel' =>
      let acc' := String (hexdigit (n mod 16)) acc in
      if (n <? 16)%N then acc' else hex_digits_fuel fuel' (n / 16) acc'
  end.

(** Minimal lower-case hexadecimal numeral of [n]; ["0"] for zero.  A
    number of [k] bits has at most [k] hexadecimal digits. *)
Definition hex_digits (n : N) : string :=
  hex_digits_fuel (S (N.to_nat (N.log2 n))) n EmptyString.

(** [hex(n)]: ["0x"] and the numeral, with a leading minus sign for a
    negative argument. *)
Definition hex (n : Z) : string :=
  if (n <? 0)%Z then "-0x" ++ hex_digits (Z.to_N (- n))
  else "0x" ++ hex_digits (Z.to_N n).

(** *** [int(s, 0)] *)

(** White space as [int] sees it in a string of code points below 256:
    the ASCII set of [Py_ISSPACE], and U+0085 and U+00A0, which the
    conversion of the string to ASCII turns into blanks. *)
Definition int_isspace (c : ascii) : bool :=
  let n := ord c in
  ((9 <=? n)%N && (n <=? 13)%N) || (n =? 32)%N || (n =? 133)%N || (n =? 160)%N.

Fixpoint lstrip (s : string) : string :=
  match s with
  | String c r => if int_isspace c then lstrip r else s
  | EmptyString => s
  end.

(** The digit scan of [long_from_string_base]: digits below [base] with
    single underscores between them.  Returns the value, the number of
    digits and the unread rest; [None] on a doubled or trailing
    underscore. *)
Fixpoint scan_digits (base : N) (s : string) (prev_us : bool) (acc : N) (cnt : nat)
  : option (N * nat * string) :=
  let stop := if prev_us then None else Some (acc, cnt, s) in
  match s with
  | EmptyString => stop
  | String c r =>
      if Ascii.eqb c "_" then
        if prev_us then None else scan_digits base r true acc cnt
      else
        match digit_value c with
        | Some d =>
            if (d <? base)%N then scan_digits base r false (acc * base + d)%N (S cnt)
            else stop
        | None => stop
        end
  end.

(** The default limit on the digits of a numeral in a base that is not
    a power of two ([sys.int_info.default_max_str_digits]). *)
Definition max_str_digits : nat := 4300.

Definition is_pow2_base (base : N) : bool :=
  (base =? 2)%N || (base =? 8)%N || (base =? 16)%N.

(** The numeral after sign and base prefix: no leading underscore, at
    least one digit, only white space after it. *)
Definition int_body (base : N) (body : string) : option N :=
  if startswith "_" body then None
  else
    match scan_digits base body false 0%N O with
    | None => None
    | Some (v, cnt, rest) =>
        match cnt with
        | O => None
        | S _ =>
            if negb (is_pow2_base base) && Nat.ltb max_str_digits cnt then None
            else match lstrip rest with
                 | EmptyString => Some v
                 | String _ _ => None
                 end
        end
    end.

(** After a base prefix one underscore is allowed. *)
Definition skip_underscore (s : string) : string :=
  match s with
  | String c r => if Ascii.eqb c "_" then r else s
  | EmptyString => s
  end.

(** The unsigned part of [int(s, 0)]: the base is read off the prefix;
    a decimal numeral with a leading zero must be zero. *)
Definition int_unsigned (s : string) : option N :=
  match s with
  | String "0" (String c r) =>
      if Ascii.eqb c "x" || Ascii.eqb c "X" then int_body 16 (skip_underscore r)
      else if Ascii.eqb c "o" || Ascii.eqb c "O" then int_body 8 (skip_underscore r)
      else if Ascii.eqb c "b" || Ascii.eqb c "B" then int_body 2 (skip_underscore r)
      else match int_body 10 s with
           | Some 0%N => Some 0%N
           | _ => None
           end
  | _ => int_body 10 s
  end.

(** [int(s, 0)]; [None] stands for the [ValueError]. *)
Definition int_base0 (s : string) : option Z :=
  match lstrip s with
  | String "+" r => option_map Z.of_N (int_unsigned r)
  | String "-" r => option_map (fun n => (- Z.of_N n)%Z) (int_unsigned r)
  | s' => option_map Z.of_N (int_unsigned s')
  end.

(** *** [str(n)], [repr(n)] and [f"{n}"] *)

(** Whether the decimal numeral of [n] is written at all: the
    interpreter refuses, with a [ValueError], an integer of more than
    [max_str_digits] decimal digits. *)
Definition int_str_allowed (n : Z) : bool :=
  (Z.abs n <? 10 ^ Z.of_nat max_str_digits)%Z.

(** *** [bytes.hex()] and [bytes.fromhex(s)] *)

Definition byte_hex (b : byte) : string :=
  let n := Byte.to_N b in
  String (hexdigit (n / 16)) (String (hexdigit (n mod 16)) EmptyString).

Fixpoint bytes_hex (bs : list byte) : string :=
  match bs with
  | [] => EmptyString
  | b :: r => byte_hex b ++ bytes_hex r
  end.

(** [Py_ISSPACE]: the ASCII white space [fromhex] skips between bytes. *)
Definition ascii_isspace (c : ascii) : bool :=
  let n := ord c in ((9 <=? n)%N && (n <=? 13)%N) || (n =? 32)%N.

Definition byte_of_nibbles (hi lo : N) : option byte := Byte.of_N (16 * hi + lo).

(** [bytes.fromhex(s)]: pairs of hexadecimal digits, white space allowed
    between pairs; [None] stands for the [ValueError]. *)
Fixpoint fromhex (s : string) : option (list byte) :=
  match s with
  | EmptyString => Some []
  | String c r =>
      if ascii_isspace c then fromhex r
      else
        match hex_value c, r with
        | Some hi, String d r' =>
            match hex_value d with
            | Some lo =>
                match byte_of_nibbles hi lo, fromhex r' with
                | Some b, Some bs => Some (b :: bs)
                | _, _ => None
                end
            | None => None
            end
        | _, _ => None
        end
  end.

End Py.

(* ================================================================== *)
(** ** Dynamic values, typed values and outcomes *)
(* ================================================================== *)

(** [JSON = None | bool | int | float | str | Sequence | Mapping].  A
    float is carried as mantissa and exponent; no handler looks inside.
    A mapping keeps its keys in insertion order. *)
Inductive JSON : Type :=
| JNull
| JBool (b : bool)
| JInt (n : Z)
| JFloat (m e : Z)
| JStr (s : string)
| JList (items : list JSON)
| JDict (entries : list (string * JSON)).

Definition dict := list (string * JSON).

(** The value under a key, if any: the first entry with that key. *)
Fixpoint dict_get (key : string) (d : dict) : option JSON :=
  match d with
  | [] => None
  | (k, v) :: r => if String.eqb k key then Some v else dict_get key r
  end.

(** [key in d]. *)
Definition dict_contains (key : string) (d : dict) : bool :=
  match dict_get key d with Some _ => true | None => false end.

(** [d.get(key)]: [None] when the key is absent. *)
Definition dict_get_or_none (key : string) (d : dict) : JSON :=
  match dict_get key d with Some v => v | None => JNull end.

(** [d[key] = v]: an existing key keeps its place, a new one goes last. *)
Fixpoint dict_set (key : string) (v : JSON) (d : dict) : dict :=
  match d with
  | [] => [(key, v)]
  | (k, w) :: r => if String.eqb k key then (k, v) :: r else (k, w) :: dict_set key v r
  end.

(** Nesting depth of a dynamic value. *)
Fixpoint json_depth (j : JSON) : nat :=
  match j with
  | JList items => S (list_max (map json_depth items))
  | JDict entries => S (list_max (map (fun kv => json_depth (snd kv)) entries))
  | _ => O
  end.

(* ================================================================== *)
(** ** [_rpc.py]: the schema *)
(* ================================================================== *)

(** The subclasses of [TypedData]; [Address] comes from
    [_typed_wrappers]. *)
Inductive TypedDataClass : Type :=
| LogTopic | BlockHash | TxHash | TrieHash | UnclesHash | BlockNonce | LogsBloom
| Address.

(** [_length()] of each class. *)
Definition _length (k : TypedDataClass) : nat :=
  match k with
  | LogTopic => 32
  | BlockHash => 32
  | TxHash => 32
  | TrieHash => 32
  | UnclesHash => 32
  | BlockNonce => 8
  | LogsBloom => 256
  | Address => 20
  end.

Definition TypedDataClass_eqb (a b : TypedDataClass) : bool :=
  match a, b with
  | LogTopic, LogTopic | BlockHash, BlockHash | TxHash, TxHash
  | TrieHash, TrieHash | UnclesHash, UnclesHash | BlockNonce, BlockNonce
  | LogsBloom, LogsBloom | Address, Address => true
  | _, _ => false
  end.

Inductive BlockLabel : Type := LATEST | PENDING | SAFE | FINALIZED | EARLIEST.

Definition BlockLabel_value (l : BlockLabel) : string :=
  match l with
  | LATEST => "latest"
  | PENDING => "pending"
  | SAFE => "safe"
  | FINALIZED => "finalized"
  | EARLIEST => "earliest"
  end.

Definition BlockLabel_members : list BlockLabel :=
  [LATEST; PENDING; SAFE; FINALIZED; EARLIEST].

(** The member of [BlockLabel] with that value, if there is one. *)
Definition BlockLabel_lookup (val : JSON) : option BlockLabel :=
  match val with
  | JStr s => find (fun l => String.eqb (BlockLabel_value l) s) BlockLabel_members
  | _ => None
  end.

Inductive RPCErrorCode : Type :=
| SERVER_ERROR | INVALID_REQUEST | METHOD_NOT_FOUND | INVALID_PARAMETER | EXECUTION_ERROR.

Definition RPCErrorCode_value (c : RPCErrorCode) : Z :=
  match c with
  | SERVER_ERROR => -32000
  | INVALID_REQUEST => -32600
  | METHOD_NOT_FOUND => -32601
  | INVALID_PARAMETER => -32602
  | EXECUTION_ERROR => 3
  end.

Definition RPCErrorCode_members : list RPCErrorCode :=
  [SERVER_ERROR; INVALID_REQUEST; METHOD_NOT_FOUND; INVALID_PARAMETER; EXECUTION_ERROR].

(** [RPCErrorCode(value)]: the member with that value; [None] stands
    for the [ValueError]. *)
Definition RPCErrorCode_lookup (value : Z) : option RPCErrorCode :=
  find (fun c => Z.eqb (RPCErrorCode_value c) value) RPCErrorCode_members.

Record RPCError : Type := mkRPCError {
  code : Z;
  message : string;
  data : option (list byte)
}.

(** The property [parsed_code]: the [ValueError] of the lookup is
    caught and turned into [None]. *)
Definition parsed_code (self : RPCError) : option RPCErrorCode :=
  match RPCErrorCode_lookup (code self) with
  | Some c => Some c
  | None => None
  end.

(** The class method [with_code]. *)
Definition with_code (c : RPCErrorCode) (msg : string) (d : option (list byte)) : RPCError :=
  mkRPCError (RPCErrorCode_value c) msg d.

(** *** Typed values and type descriptors *)

(** The instances the codec produces and consumes.  A dataclass
    instance carries its class name and its attributes in declaration
    order; comparing two [value]s is Python's [==] on them. *)
Inductive value : Type :=
| VNone
| VBool (b : bool)
| VInt (n : Z)
| VStr (s : string)
| VBytes (bs : list byte)
| VLabel (l : BlockLabel)
| VData (k : TypedDataClass) (bs : list byte)
| VAmount (n : Z)
| VTuple (items : list value)
| VObject (cls : string) (attrs : list (string * value)).

(** [getattr(val, name)]. *)
Fixpoint getattr (name : string) (attrs : list (string * value)) : option value :=
  match attrs with
  | [] => None
  | (k, v) :: r => if String.eqb k name then Some v else getattr name r
  end.

(** *** Outcomes *)

(** What a call can raise besides the codec's own error classes. *)
Inductive exn : Type :=
| ValueError        (* from [int(val, 0)], and from writing the decimal
                       numeral of an integer of too many digits *)
| ValidationError (expected actual : nat)
                    (* wrong length given to a fixed-length constructor *)
| NegativeValue     (* negative number given to a quantity constructor *)
| TypeError         (* a built-in applied to a value of another class *)
| AttributeError    (* an attribute the class of the value lacks *)
| RecursionError.   (* the interpreter's call stack is used up *)

(** [compages.StructuringError]; the message is kept as data. *)
Inductive StructuringError : Type :=
| NotHexData        (* "The value must be a 0x-prefixed hex-encoded data" *)
| NotHexInteger     (* "The value must be a 0x-prefixed hex-encoded integer" *)
| MalformedHex      (* [str(exc)] of the [ValueError] of [bytes.fromhex] *)
| MalformedLabel    (* [str(exc)] of the [ValueError] of [BlockLabel(val)] *)
| TxNotMapping      (* "Transaction must be a mapping type" *)
| TxMissingType     (* "Transaction is missing the `type` field" *)
| VariantMismatch (expected : Z) (actual : value)
                    (* "Expected transaction type {expected}, got {actual}" *)
| NotInt | NotStr | NotBool | NotNone | NotSequence | NotMapping
| ElementError (index : nat) (cause : StructuringError)
| FieldError (name : string) (cause : StructuringError)
| MissingField (name : string)
| NoMatchingVariant.

(** [compages.UnstructuringError]. *)
Inductive UnstructuringError : Type :=
| UNotInt | UNotStr | UNotBool | UNotNone | UNotSequence | UNotDataclass
| UElementError (index : nat) (cause : UnstructuringError)
| UFieldError (name : string) (cause : UnstructuringError)
| UNoMatchingVariant.

(** The result of a call: a value, the codec's error, or another
    exception passing through. *)
Inductive outcome (E A : Type) : Type :=
| Ok (a : A)
| Fail (e : E)
| Raise (x : exn).

Arguments Ok {E A} a.
Arguments Fail {E A} e.
Arguments Raise {E A} x.

Definition bind {E A B} (m : outcome E A) (k : A -> outcome E B) : outcome E B :=
  match m with
  | Ok a => k a
  | Fail e => Fail e
  | Raise x => Raise x
  end.

Notation "x <- m ;; k" := (bind m (fun x => k))
  (at level 61, m at next level, right associativity).

(** [try: ... except Error as exc: raise Error(ctx, exc)]. *)
Definition wrap {E A} (ctx : E -> E) (m : outcome E A) : outcome E A :=
  match m with
  | Ok a => Ok a
  | Fail e => Fail (ctx e)
  | Raise x => Raise x
  end.

Definition is_ok {E A} (m : outcome E A) : bool :=
  match m with Ok _ => true | _ => false end.

(** The first exception of a sequence of steps, if any step raises. *)
Definition first_raised (steps : list (option exn)) : option exn :=
  fold_right (fun step rest => match step with Some x => Some x | None => rest end)
    None steps.

(** [repr(val)], as far as it can fail.  The text of a list or of a
    mapping is built from the texts of its parts in order, one nested
    call for each level of nesting.  An integer whose decimal numeral
    the interpreter refuses to write raises [ValueError]; a level of
    nesting the call stack has no room for raises [RecursionError];
    what is met first is what [repr] raises.  [stack] is the number of
    nested calls the stack still has room for. *)
Fixpoint repr_raises (stack : nat) (val : JSON) {struct val} : option exn :=
  match val with
  | JInt n => if Py.int_str_allowed n then None else Some ValueError
  | JList items =>
      match stack with
      | O => Some RecursionError
      | S stack' => first_raised (map (repr_raises stack') items)
      end
  | JDict entries =>
      match stack with
      | O => Some RecursionError
      | S stack' => first_raised (map (fun kv => repr_raises stack' (snd kv)) entries)
      end
  | _ => None
  end.

(** The declared types the registries are keyed by: the built-in
    classes, the schema's own leaf classes, [tuple[T, ...]], unions and
    dataclasses.  A field has a name, a type and possibly a default. *)
Inductive ty : Type :=
| TInt | TStr | TBool | TBytes | TNone
| TErrorCode
| TBlockLabel
| TData (k : TypedDataClass)
| TAmount
| TTuple (elem : ty)
| TUnion (variants : list ty)
| TDataclass (cls : string) (fields : list field)
with field : Type :=
| Field (name : string) (t : ty) (default : option value).

Definition field_name (f : field) : string := match f with Field n _ _ => n end.

(** Nesting depth of a declared type. *)
Fixpoint ty_depth (t : ty) : nat :=
  match t with
  | TTuple elem => S (ty_depth elem)
  | TUnion variants => S (list_max (map ty_depth variants))
  | TDataclass _ fields =>
      S (list_max (map (fun f => match f with Field _ ft _ => ty_depth ft end) fields))
  | _ => O
  end.

(** [None | T]. *)
Definition Optional (t : ty) : ty := TUnion [TNone; t].

Definition required (name : string) (t : ty) : field := Field name t None.
Definition defaulted (name : string) (t : ty) (v : value) : field := Field name t (Some v).

Definition TxInfo : ty := TDataclass "TxInfo" [
  required "chain_id" TInt;
  required "type_" TInt;
  required "hash_" (TData TxHash);
  required "input_" (Optional TBytes);
  required "block_hash" (Optional (TData BlockHash));
  required "block_number" TInt;
  required "transaction_index" (Optional TInt);
  required "from_" (TData Address);
  required "to" (Optional (TData Address));
  required "value" TAmount;
  required "nonce" TInt;
  required "gas" TInt;
  required "gas_price" TAmount;
  required "max_fee_per_gas" (Optional TAmount);
  required "max_priority_fee_per_gas" (Optional TAmount);
  required "v" TInt;
  required "r" TInt;
  required "s" TInt ].

Definition LogEntry : ty := TDataclass "LogEntry" [
  required "removed" TBool;
  required "address" (TData Address);
  required "data" TBytes;
  required "topics" (TTuple (TData LogTopic));
  required "log_index" TInt;
  required "transaction_index" TInt;
  required "transaction_hash" (TData TxHash);
  required "block_hash" (TData BlockHash);
  required "block_number" TInt ].

Definition TxReceipt : ty := TDataclass "TxReceipt" [
  required "block_hash" (TData BlockHash);
  required "block_number" TInt;
  required "contract_address" (Optional (TData Address));
  required "cumulative_gas_used" TInt;
  required "effective_gas_price" TAmount;
  required "from_" (TData Address);
  required "gas_used" TInt;
  required "to" (Optional (TData Address));
  required "transaction_hash" (TData TxHash);
  required "transaction_index" TInt;
  required "type_" TInt;
  required "status" TInt;
  required "logs" (TTuple LogEntry);
  required "logs_bloom" (TData LogsBloom) ].

Definition BlockInfo : ty := TDataclass "BlockInfo" [
  required "number" TInt;
  required "hash_" (Optional (TData BlockHash));
  required "parent_hash" (TData BlockHash);
  required "nonce" (Optional (TData BlockNonce));
  required "miner" (Optional (TData Address));
  required "difficulty" TInt;
  required "total_difficulty" (Optional TInt);
  required "size" TInt;
  required "gas_limit" TInt;
  required "gas_used" TInt;
  required "base_fee_per_gas" TAmount;
  required "timestamp" TInt;
  required "transactions" (TUnion [TTuple TxInfo; TTuple (TData TxHash)]);
  required "uncles" (TTuple (TData BlockHash));
  required "sha3_uncles" (TData UnclesHash);
  required "logs_bloom" (Optional (TData LogsBloom));
  required "transactions_root" (TData TrieHash);
  required "state_root" (TData TrieHash);
  required "receipts_root" (TData TrieHash);
  required "extra_data" TBytes ].

Definition RPCError_t : ty := TDataclass "RPCError" [
  required "code" TErrorCode;
  required "message" TStr;
  defaulted "data" (Optional TBytes) VNone ].

Definition Type2Transaction : ty := TDataclass "Type2Transaction" [
  required "chain_id" TInt;
  required "value" TAmount;
  required "gas" TInt;
  required "max_fee_per_gas" TAmount;
  required "max_priority_fee_per_gas" TAmount;
  required "nonce" TInt;
  defaulted "to" (Optional (TData Address)) VNone;
  defaulted "data" (Optional TBytes) VNone ].

Definition EthCallParams : ty := TDataclass "EthCallParams" [
  required "to" (TData Address);
  defaulted "from_" (Optional (TData Address)) VNone;
  defaulted "gas" (Optional TInt) VNone;
  defaulted "gas_price" TInt (VInt 0);
  defaulted "value" TAmount (VAmount 0);
  defaulted "data" (Optional TBytes) VNone ].

Definition EstimateGasParams : ty := TDataclass "EstimateGasParams" [
  required "from_" (TData Address);
  defaulted "to" (Optional (TData Address)) VNone;
  defaulted "gas" (Optional TInt) VNone;
  defaulted "gas_price" TInt (VInt 0);
  defaulted "nonce" (Optional TInt) VNone;
  defaulted "value" TAmount (VAmount 0);
  defaulted "data" (Optional TBytes) VNone ].

(** [None | Block] with [Block = int | BlockLabel]; Python flattens the
    union. *)
Definition OptionalBlock : ty := TUnion [TNone; TInt; TBlockLabel].

Definition AddressFilter : ty := TUnion [TNone; TData Address; TTuple (TData Address)].

Definition TopicsFilter : ty :=
  Optional (TTuple (TUnion [TNone; TData LogTopic; TTuple (TData LogTopic)])).

Definition FilterParams : ty := TDataclass "FilterParams" [
  defaulted "from_block" OptionalBlock VNone;
  defaulted "to_block" OptionalBlock VNone;
  defaulted "address" AddressFilter VNone;
  defaulted "topics" TopicsFilter VNone ].

Definition FilterParamsEIP234 : ty := TDataclass "FilterParamsEIP234" [
  required "block_hash" (TData BlockHash);
  defaulted "address" AddressFilter VNone;
  defaulted "topics" TopicsFilter VNone ].

(** The dataclasses of the schema. *)
Definition schema : list ty :=
  [TxInfo; LogEntry; TxReceipt; BlockInfo; RPCError_t; Type2Transaction;
   EthCallParams; EstimateGasParams; FilterParams; FilterParamsEIP234].

(** *** Instances of a declared type *)

(** The run-time class test, followed into tuples and unions. *)
Fixpoint isinstance (t : ty) (v : value) : bool :=
  match t, v with
  | TInt, VInt _ => true
  | TStr, VStr _ => true
  | TBool, VBool _ => true
  | TBytes, VBytes _ => true
  | TNone, VNone => true
  | TErrorCode, VInt _ => true
  | TBlockLabel, VLabel _ => true
  | TData k, VData k' _ => TypedDataClass_eqb k k'
  | TAmount, VAmount _ => true
  | TTuple elem, VTuple items => forallb (isinstance elem) items
  | TUnion variants, _ => existsb (fun t' => isinstance t' v) variants
  | TDataclass cls _, VObject cls' _ => String.eqb cls cls'
  | _, _ => false
  end.

(** The first variant of a union that [matches] decides. *)
Fixpoint first_match (matches decide : ty -> bool) (variants : list ty) : bool :=
  match variants with
  | [] => false
  | t :: r => if matches t then decide t else first_match matches decide r
  end.

(** The attributes are those of the fields, name by name and in order,
    each passing [check] at its field's type. *)
Fixpoint attrs_match (check : ty -> value -> bool) (fields : list field)
    (attrs : list (string * value)) : bool :=
  match fields, attrs with
  | [], [] => true
  | Field n ft _ :: fr, (k, a) :: ar =>
      String.eqb n k && check ft a && attrs_match check fr ar
  | _, _ => false
  end.

(** A valid instance of a declared type: every attribute is there, in
    declaration order, and is a valid instance of its field's type;
    [int] fields and amounts are non-negative (they stand for
    quantities: block numbers, gas, nonces), fixed-length data has its
    class's length, and a value of a union is valid for the variant its
    run-time class selects. *)
Fixpoint valid (t : ty) (v : value) : bool :=
  match t, v with
  | TInt, VInt n => (0 <=? n)%Z
  | TStr, VStr _ => true
  | TBool, VBool _ => true
  | TBytes, VBytes _ => true
  | TNone, VNone => true
  | TErrorCode, VInt _ => true
  | TBlockLabel, VLabel _ => true
  | TData k, VData k' bs => TypedDataClass_eqb k k' && Nat.eqb (List.length bs) (_length k)
  | TAmount, VAmount n => (0 <=? n)%Z
  | TTuple elem, VTuple items => forallb (valid elem) items
  | TUnion variants, _ =>
      first_match (fun t' => isinstance t' v) (fun t' => valid t' v) variants
  | TDataclass cls fields, VObject cls' attrs =>
      String.eqb cls cls' && attrs_match valid fields attrs
  | _, _ => false
  end.

(* ================================================================== *)
(** ** [_typed_wrappers]: constructors used by the handlers *)
(* ================================================================== *)

(** Modelled from the spec: the constructor of [TypedData] and its
    subclasses is in [_typed_wrappers.py], which is not among the
    sources at hand.  Spec 4.1: construction fails with a length
    mismatch (a [ValidationError]) unless the input has exactly
    [_length()] bytes. *)
Definition TypedData_new {E} (k : TypedDataClass) (bs : list byte) : outcome E value :=
  if Nat.eqb (List.length bs) (_length k) then Ok (VData k bs)
  else Raise (ValidationError (_length k) (List.length bs)).

(** Modelled from the spec: the constructor of [TypedQuantity]
    ([Amount]) is in [_typed_wrappers.py].  Spec 4.2: fails with
    [NegativeValue] on a negative integer. *)
Definition Amount_new {E} (n : Z) : outcome E value :=
  if (n <? 0)%Z then Raise NegativeValue else Ok (VAmount n).

(** Upper-cases the characters of [s] picked by [upper], counted from
    [i]. *)
Fixpoint apply_case (upper : nat -> bool) (i : nat) (s : string) : string :=
  match s with
  | EmptyString => EmptyString
  | String c r =>
      String (if upper i then Py.to_upper c else c) (apply_case upper (S i) r)
  end.

(* ================================================================== *)
(** ** [_serialization.py] *)
(* ================================================================== *)

Section Serialization.

(** The hash-derived rule of the address checksum: whether nibble [i]
    of the given address is written in upper case.  The hash itself is
    a collaborator outside the codec. *)
Variable checksum_case : list byte -> nat -> bool.

(** Modelled from the spec: the property [Address.checksum] is in
    [_typed_wrappers.py].  Spec 4.2: the mixed-case hexadecimal
    numeral of the 20 bytes, ["0x"]-prefixed, each nibble's case chosen
    by the hash-derived rule. *)
Definition checksum (bs : list byte) : string :=
  "0x" ++ apply_case (checksum_case bs) O (Py.bytes_hex bs).

Definition SResult := outcome StructuringError value.
Definition UResult := outcome UnstructuringError JSON.

(** *** Structuring handlers of this package *)

Definition _IntoBytesFromHex (val : JSON) : outcome StructuringError (list byte) :=
  match val with
  | JStr s =>
      if negb (Py.startswith "0x" s) then Fail NotHexData
      else match Py.fromhex (Py.drop 2 s) with
           | Some bs => Ok bs
           | None => Fail MalformedHex
           end
  | _ => Fail NotHexData
  end.

(** [BlockLabel(val)] returns the member whose value is [val]; for any
    other [val] it raises [ValueError], with [repr(val)] in the
    message.  Only [ValueError] is caught and turned into the codec's
    error: what building the message raises besides leaves the handler
    as it is.  [stack] is the number of nested calls the call stack
    still has room for. *)
Definition _IntoBlockLabel (stack : nat) (val : JSON) : SResult :=
  match BlockLabel_lookup val with
  | Some l => Ok (VLabel l)
  | None =>
      match repr_raises stack val with
      | None => Fail MalformedLabel
      | Some ValueError => Fail MalformedLabel
      | Some x => Raise x
      end
  end.

Definition _IntoIntFromHex (val : JSON) : outcome StructuringError Z :=
  match val with
  | JStr s =>
      if negb (Py.startswith "0x" s) then Fail NotHexInteger
      else match Py.int_base0 s with
           | Some n => Ok n
           | None => Raise ValueError
           end
  | _ => Fail NotHexInteger
  end.

Definition _IntoTypedData (structure_into : TypedDataClass) (val : JSON) : SResult :=
  data <- _IntoBytesFromHex val ;;
  TypedData_new structure_into data.

Definition _IntoTypedQuantity (val : JSON) : SResult :=
  int_val <- _IntoIntFromHex val ;;
  Amount_new int_val.

(** [tx_type != self._type_num]. *)
Definition differs_from (type_num : Z) (tx_type : value) : bool :=
  match tx_type with
  | VInt n => negb (Z.eqb n type_num)
  | _ => true
  end.

(** Whether [f"{tx_type}"] is written: it is not for an integer of too
    many decimal digits. *)
Definition formats (tx_type : value) : bool :=
  match tx_type with
  | VInt n => Py.int_str_allowed n
  | _ => true
  end.

(** The generator handler: what precedes [yield val] runs first, the
    next handler of the chain ([next]) receives the yielded value, and
    its result is returned.  The message of the mismatch error is an
    f-string with [tx_type] in it, built before the error is: where
    [tx_type] cannot be written, the [ValueError] of that leaves the
    handler in place of the codec's error. *)
Definition _IntoTypedTx (type_num : Z) (structure_into : ty -> JSON -> SResult)
    (next : JSON -> SResult) (val : JSON) : SResult :=
  match val with
  | JDict d =>
      if negb (dict_contains "type" d) then Fail TxMissingType
      else
        tx_type <- structure_into TInt (dict_get_or_none "type" d) ;;
        if differs_from type_num tx_type then
          if formats tx_type then Fail (VariantMismatch type_num tx_type)
          else Raise ValueError
        else next val
  | _ => Fail TxNotMapping
  end.

(** *** Unstructuring handlers of this package *)

(** Each handler is written for the class the registry attaches it to,
    and the properties below apply it to values of that class.  A
    [bool] is an [int] in Python, [True] being 1 and [False] 0, and
    [bytes(val)] of a byte string is the byte string: on these the
    built-ins answer as on the class meant, and so do the handlers
    here.  An application to a value of yet another class is outside
    the use of the codec and is recorded as the exception of a built-in
    on a class it does not take, or of an attribute access on a class
    without the attribute; the few further answers the built-ins have
    there ([int] of a decimal numeral, [bytes] of a count or of a
    tuple of small integers, [value] as a field of a record) are not
    followed. *)

(** [int(b)] for a [bool]. *)
Definition int_of_bool (b : bool) : Z := if b then 1%Z else 0%Z.

(** [hex(val)]. *)
Definition _AsIntToHex (val : value) : UResult :=
  match val with
  | VInt n => Ok (JStr (Py.hex n))
  | VBool b => Ok (JStr (Py.hex (int_of_bool b)))
  | _ => Raise TypeError
  end.

(** ["0x" + val.hex()]. *)
Definition _AsBytesToHex (val : value) : UResult :=
  match val with
  | VBytes bs => Ok (JStr ("0x" ++ Py.bytes_hex bs))
  | _ => Raise AttributeError
  end.

(** [hex(int(val))]. *)
Definition _AsTypedQuantity (val : value) : UResult :=
  match val with
  | VAmount n => Ok (JStr (Py.hex n))
  | VInt n => Ok (JStr (Py.hex n))
  | VBool b => Ok (JStr (Py.hex (int_of_bool b)))
  | _ => Raise TypeError
  end.

(** ["0x" + bytes(val).hex()]. *)
Definition _AsTypedData (val : value) : UResult :=
  match val with
  | VData _ bs => Ok (JStr ("0x" ++ Py.bytes_hex bs))
  | VBytes bs => Ok (JStr ("0x" ++ Py.bytes_hex bs))
  | _ => Raise TypeError
  end.

(** [val.checksum]. *)
Definition _AsAddress (val : value) : UResult :=
  match val with
  | VData Address bs => Ok (JStr (checksum bs))
  | _ => Raise AttributeError
  end.

(** [val.value]. *)
Definition _AsBlockLabel (val : value) : UResult :=
  match val with
  | VLabel l => Ok (JStr (BlockLabel_value l))
  | _ => Raise AttributeError
  end.

(** The generator handler: the next handler of the chain builds the
    mapping, then the ["type"] entry is assigned into it. *)
Definition _AsTypedTx (type_num : Z) (next : value -> UResult) (val : value) : UResult :=
  tx_dict <- next val ;;
  match tx_dict with
  | JDict d =>
      type_hex <- _AsIntToHex (VInt type_num) ;;
      Ok (JDict (dict_set "type" type_hex d))
  | _ => Raise TypeError
  end.

Definition _to_camel_case (name : string) : string :=
  let name := Py.removesuffix_underscore name in
  let parts := Py.split "_" name in
  hd EmptyString parts ++ Py.join (map Py.capitalize (tl parts)).

(** *** Handlers imported from [compages] *)

(** Modelled from the spec: [IntoInt], [IntoStr], [IntoBool] and
    [IntoNone] are imported from [compages]; each accepts a dynamic
    value of its own kind unchanged and rejects every other one. *)
Definition IntoInt (val : JSON) : SResult :=
  match val with JInt n => Ok (VInt n) | _ => Fail NotInt end.

Definition IntoStr (val : JSON) : SResult :=
  match val with JStr s => Ok (VStr s) | _ => Fail NotStr end.

Definition IntoBool (val : JSON) : SResult :=
  match val with JBool b => Ok (VBool b) | _ => Fail NotBool end.

Definition IntoNone (val : JSON) : SResult :=
  match val with JNull => Ok VNone | _ => Fail NotNone end.

(** Elements in order; the first failing one ends the pass, its
    position attached. *)
Fixpoint structure_elems (structure_elem : JSON -> SResult) (index : nat)
    (items : list JSON) : outcome StructuringError (list value) :=
  match items with
  | [] => Ok []
  | x :: r =>
      v <- wrap (ElementError index) (structure_elem x) ;;
      vs <- structure_elems structure_elem (S index) r ;;
      Ok (v :: vs)
  end.

(** Modelled from the spec: [IntoTuple] is imported from [compages].
    Spec 4.4, Sequence(T): the dynamic value must be an ordered
    collection, each element recurses, order is kept, and the first
    failing element fails the whole with its index. *)
Definition IntoTuple (structure_into : ty -> JSON -> SResult) (elem : ty) (val : JSON)
  : SResult :=
  match val with
  | JList items =>
      vs <- structure_elems (structure_into elem) O items ;;
      Ok (VTuple vs)
  | _ => Fail NotSequence
  end.

(** Modelled from the spec: [IntoUnion] is imported from [compages].
    Spec 4.4, Union: the variants are tried in declaration order, the
    first to succeed is taken, and none succeeding is an error.  Only
    the codec's own error class moves on to the next variant: another
    exception is not an outcome of structuring and passes through. *)
Fixpoint IntoUnion (structure_into : ty -> JSON -> SResult) (variants : list ty)
    (val : JSON) : SResult :=
  match variants with
  | [] => Fail NoMatchingVariant
  | t :: r =>
      match structure_into t val with
      | Ok v => Ok v
      | Fail _ => IntoUnion structure_into r val
      | Raise x => Raise x
      end
  end.

(** The fields of a record in declaration order, each looked up under
    its wire name. *)
Fixpoint structure_fields (structure_into : ty -> JSON -> SResult)
    (to_unstructured_name : string -> string) (fields : list field) (d : dict)
  : outcome StructuringError (list (string * value)) :=
  match fields with
  | [] => Ok []
  | Field name t default :: r =>
      let val_name := to_unstructured_name name in
      v <- match dict_get val_name d with
           | Some x => wrap (FieldError name) (structure_into t x)
           | None =>
               match default with
               | Some dv => Ok dv
               | None => Fail (MissingField name)
               end
           end ;;
      vs <- structure_fields structure_into to_unstructured_name r d ;;
      Ok ((name, v) :: vs)
  end.

(** Modelled from the spec: [IntoDataclassFromMapping] is imported from
    [compages].  Spec 4.4, Record(fields): the dynamic value must be a
    keyed mapping; each field is looked up by its wire name; a missing
    field without a default fails; extra keys are ignored; each present
    value recurses into the declared type of its field. *)
Definition IntoDataclassFromMapping (structure_into : ty -> JSON -> SResult)
    (to_unstructured_name : string -> string) (cls : string) (fields : list field)
    (val : JSON) : SResult :=
  match val with
  | JDict d =>
      attrs <- structure_fields structure_into to_unstructured_name fields d ;;
      Ok (VObject cls attrs)
  | _ => Fail NotMapping
  end.

(** Modelled from the spec: [AsInt], [AsBool], [AsStr] and [AsNone] are
    imported from [compages]; each passes a value of its own class
    through unchanged. *)
Definition AsInt (val : value) : UResult :=
  match val with VInt n => Ok (JInt n) | _ => Fail UNotInt end.

Definition AsBool (val : value) : UResult :=
  match val with VBool b => Ok (JBool b) | _ => Fail UNotBool end.

Definition AsStr (val : value) : UResult :=
  match val with VStr s => Ok (JStr s) | _ => Fail UNotStr end.

Definition AsNone (val : value) : UResult :=
  match val with VNone => Ok JNull | _ => Fail UNotNone end.

Fixpoint unstructure_elems (unstructure_elem : value -> UResult) (index : nat)
    (items : list value) : outcome UnstructuringError (list JSON) :=
  match items with
  | [] => Ok []
  | x :: r =>
      j <- wrap (UElementError index) (unstructure_elem x) ;;
      js <- unstructure_elems unstructure_elem (S index) r ;;
      Ok (j :: js)
  end.

(** Modelled from the spec: [AsTuple] is imported from [compages]; the
    mirror of [IntoTuple]. *)
Definition AsTuple (unstructure_as : ty -> value -> UResult) (elem : ty) (val : value)
  : UResult :=
  match val with
  | VTuple items =>
      js <- unstructure_elems (unstructure_as elem) O items ;;
      Ok (JList js)
  | _ => Fail UNotSequence
  end.

(** Modelled from the spec: [AsUnion] is imported from [compages].
    Spec 4.4, Union: unstructuring dispatches on the run-time variant of
    the value. *)
Definition AsUnion (unstructure_as : ty -> value -> UResult) (variants : list ty)
    (val : value) : UResult :=
  match find (fun t => isinstance t val) variants with
  | Some t => unstructure_as t val
  | None => Fail UNoMatchingVariant
  end.

Fixpoint unstructure_fields (unstructure_as : ty -> value -> UResult)
    (to_unstructured_name : string -> string) (fields : list field)
    (attrs : list (string * value)) : outcome UnstructuringError dict :=
  match fields with
  | [] => Ok []
  | Field name t _ :: r =>
      match getattr name attrs with
      | None => Raise TypeError
      | Some v =>
          j <- wrap (UFieldError name) (unstructure_as t v) ;;
          js <- unstructure_fields unstructure_as to_unstructured_name r attrs ;;
          Ok ((to_unstructured_name name, j) :: js)
      end
  end.

(** Modelled from the spec: [AsDataclassToDict] is imported from
    [compages].  Spec 4.4, Record(fields): a new keyed mapping is built
    by unstructuring each field value under its wire name, in declared
    field order. *)
Definition AsDataclassToDict (unstructure_as : ty -> value -> UResult)
    (to_unstructured_name : string -> string) (fields : list field) (val : value)
  : UResult :=
  match val with
  | VObject _ attrs =>
      d <- unstructure_fields unstructure_as to_unstructured_name fields attrs ;;
      Ok (JDict d)
  | _ => Fail UNotDataclass
  end.

(** *** The registries *)

(** The entry [Type2Transaction: _IntoTypedTx(2)] (and [_AsTypedTx(2)])
    of both registries: the class with a handler of its own ahead of the
    one every dataclass has. *)
Definition typed_tx_number (cls : string) : option Z :=
  if String.eqb cls "Type2Transaction" then Some 2%Z else None.

(** [STRUCTURER]: one level of the type-directed dispatch;
    [structure_into] is the structurer the handlers call back for the
    parts of the value, and [stack] the number of nested calls the call
    stack still has room for. *)
Definition STRUCTURER (stack : nat) (structure_into : ty -> JSON -> SResult) (t : ty)
    (val : JSON) : SResult :=
  match t with
  | TData k => _IntoTypedData k val
  | TAmount => _IntoTypedQuantity val
  | TErrorCode => IntoInt val
  | TBlockLabel => _IntoBlockLabel stack val
  | TInt => n <- _IntoIntFromHex val ;; Ok (VInt n)
  | TStr => IntoStr val
  | TBool => IntoBool val
  | TBytes => bs <- _IntoBytesFromHex val ;; Ok (VBytes bs)
  | TTuple elem => IntoTuple structure_into elem val
  | TUnion variants => IntoUnion structure_into variants val
  | TNone => IntoNone val
  | TDataclass cls fields =>
      let as_dataclass :=
        IntoDataclassFromMapping structure_into _to_camel_case cls fields in
      match typed_tx_number cls with
      | Some type_num => _IntoTypedTx type_num structure_into as_dataclass val
      | None => as_dataclass val
      end
  end.

(** [UNSTRUCTURER]. *)
Definition UNSTRUCTURER (unstructure_as : ty -> value -> UResult) (t : ty) (val : value)
  : UResult :=
  match t with
  | TData Address => _AsAddress val
  | TData _ => _AsTypedData val
  | TAmount => _AsTypedQuantity val
  | TBlockLabel => _AsBlockLabel val
  | TErrorCode => AsInt val
  | TInt => _AsIntToHex val
  | TBytes => _AsBytesToHex val
  | TBool => AsBool val
  | TStr => AsStr val
  | TNone => AsNone val
  | TUnion variants => AsUnion unstructure_as variants val
  | TTuple elem => AsTuple unstructure_as elem val
  | TDataclass cls fields =>
      let as_dict := AsDataclassToDict unstructure_as _to_camel_case fields in
      match typed_tx_number cls with
      | Some type_num => _AsTypedTx type_num as_dict val
      | None => as_dict val
      end
  end.

(** The recursion of the dispatcher through its handlers, with the
    interpreter's bound on nested calls: [depth] is the number of
    nested calls still allowed, of which a level of the dispatch takes
    one. *)
Fixpoint structure_into (depth : nat) (t : ty) (val : JSON) : SResult :=
  match depth with
  | O => Raise RecursionError
  | S depth' => STRUCTURER depth' (structure_into depth') t val
  end.

Fixpoint unstructure_as (depth : nat) (t : ty) (val : value) : UResult :=
  match depth with
  | O => Raise RecursionError
  | S depth' => UNSTRUCTURER (unstructure_as depth') t val
  end.

(** The interpreter's default recursion limit. *)
Definition recursion_limit : nat := 1000.

(** [type(obj)]: the class of a leaf value, and for an instance of a
    dataclass the schema's class of that name.  The class of a tuple
    does not tell the type of its elements, so a tuple has to be
    unstructured under a declared type. *)
Definition type_of (obj : value) : option ty :=
  match obj with
  | VNone => Some TNone
  | VBool _ => Some TBool
  | VInt _ => Some TInt
  | VStr _ => Some TStr
  | VBytes _ => Some TBytes
  | VLabel _ => Some TBlockLabel
  | VData k _ => Some (TData k)
  | VAmount _ => Some TAmount
  | VTuple _ => None
  | VObject cls _ =>
      find (fun t => match t with
                     | TDataclass c _ => String.eqb c cls
                     | _ => false
                     end) schema
  end.

(** [structure(structure_into, obj)]. *)
Definition structure (into : ty) (obj : JSON) : SResult :=
  structure_into recursion_limit into obj.

(** [unstructure(obj, unstructure_as=None)]: the declared type defaults
    to the class of the object. *)
Definition unstructure (obj : value) (as_type : option ty) : UResult :=
  match as_type with
  | Some t => unstructure_as recursion_limit t obj
  | None =>
      match type_of obj with
      | Some t => unstructure_as recursion_limit t obj
      | None => Raise TypeError
      end
  end.

End Serialization.

(* ================================================================== *)
(** ** Notions the properties are stated with *)
(* ================================================================== *)

(** *** The syntax of hexadecimal text, as the specification words it *)

Definition is_hex_digit (c : ascii) : bool :=
  match Py.hex_value c with Some _ => true | None => false end.

Fixpoint all_hex (s : string) : bool :=
  match s with
  | EmptyString => true
  | String c r => is_hex_digit c && all_hex r
  end.

(** The unsigned base-16 value of a string of hexadecimal digits. *)
Fixpoint hex_number (acc : N) (s : string) : N :=
  match s with
  | EmptyString => acc
  | String c r =>
      match Py.hex_value c with
      | Some d => hex_number (acc * 16 + d) r
      | None => acc
      end
  end.

(** ["0x"] followed by at least one hexadecimal digit. *)
Definition hex_integer_form (val : JSON) : bool :=
  match val with
  | JStr s =>
      Py.startswith "0x" s
      && Nat.ltb 0 (String.length (Py.drop 2 s))
      && all_hex (Py.drop 2 s)
  | _ => false
  end.

(** ["0x"] followed by an even number of hexadecimal digits. *)
Definition hex_bytes_form (val : JSON) : bool :=
  match val with
  | JStr s =>
      Py.startswith "0x" s
      && all_hex (Py.drop 2 s)
      && Nat.even (String.length (Py.drop 2 s))
  | _ => false
  end.

(** A string that starts with ["0x"]. *)
Definition prefixed (val : JSON) : bool :=
  match val with
  | JStr s => Py.startswith "0x" s
  | _ => false
  end.

Definition same_digit (a b : option N) : bool :=
  match a, b with
  | Some x, Some y => N.eqb x y
  | None, None => true
  | _, _ => false
  end.

Fixpoint no_space (s : string) : bool :=
  match s with
  | EmptyString => true
  | String c r => negb (Py.ascii_isspace c) && no_space r
  end.

(** *** The field-name rule, as the specification words it *)



Fixpoint no_upper (s : string) : bool :=
  match s with
  | EmptyString => true
  | String c r => negb (Py.is_upper c) && no_upper r
  end.



Definition fields_of (t : ty) : list field :=
  match t with
  | TDataclass _ fields => fields
  | _ => []
  end.


Definition Type2Transaction_fields : list field := fields_of Type2Transaction.

Definition wire_names (fields : list field) : list string :=
  map (fun f => _to_camel_case (field_name f)) fields.

(** *** Telling the variants of a union apart on the wire *)

(** The kinds of dynamic value the handlers distinguish. *)
Inductive shape : Type :=
| SNull | SBool | SInt | SFloat | SHex | SText | SList | SDict.

Definition shape_of (j : JSON) : shape :=
  match j with
  | JNull => SNull
  | JBool _ => SBool
  | JInt _ => SInt
  | JFloat _ _ => SFloat
  | JStr s => if Py.startswith "0x" s then SHex else SText
  | JList _ => SList
  | JDict _ => SDict
  end.

Definition shape_eqb (a b : shape) : bool :=
  match a, b with
  | SNull, SNull | SBool, SBool | SInt, SInt | SFloat, SFloat
  | SHex, SHex | SText, SText | SList, SList | SDict, SDict => true
  | _, _ => false
  end.

Definition has_shape (s : shape) (l : list shape) : bool := existsb (shape_eqb s) l.

(** The shapes a valid instance of [t] can unstructure to. *)
Fixpoint emits (t : ty) : list shape :=
  match t with
  | TInt | TBytes | TData _ | TAmount => [SHex]
  | TStr => [SHex; SText]
  | TBool => [SBool]
  | TNone => [SNull]
  | TErrorCode => [SInt]
  | TBlockLabel => [SText]
  | TTuple _ => [SList]
  | TUnion variants => flat_map emits variants
  | TDataclass _ _ => [SDict]
  end.

(** The shapes outside of which structuring into [t] is certain to fail
    with the codec's error. *)
Fixpoint accepts (t : ty) : list shape :=
  match t with
  | TInt | TBytes | TData _ | TAmount => [SHex]
  | TStr => [SHex; SText]
  | TBool => [SBool]
  | TNone => [SNull]
  | TErrorCode => [SInt]
  | TBlockLabel => [SText; SList; SDict]
  | TTuple _ => [SList]
  | TUnion variants => flat_map accepts variants
  | TDataclass _ _ => [SDict]
  end.

(** What [b] emits cannot be taken for an [a]: the shapes differ, or
    both are tuples and this holds of their elements. *)
Fixpoint apart (a b : ty) : bool :=
  match a, b with
  | TTuple x, TTuple y => apart x y
  | _, _ => forallb (fun s => negb (has_shape s (accepts a))) (emits b)
  end.

Fixpoint ordered_apart (variants : list ty) : bool :=
  match variants with
  | [] => true
  | t :: r => forallb (apart t) r && ordered_apart r
  end.

Fixpoint distinct (names : list string) : bool :=
  match names with
  | [] => true
  | x :: r => negb (existsb (String.eqb x) r) && distinct r
  end.

(** The declared type is one whose wire form can be read back: no two
    fields of a record share a name or a wire name, the discriminator
    key of a typed transaction is not a field's wire name, and an
    earlier variant of a union cannot take what a later one emits. *)
Fixpoint well_formed (t : ty) : bool :=
  match t with
  | TTuple elem => well_formed elem
  | TUnion variants => forallb well_formed variants && ordered_apart variants
  | TDataclass cls fields =>
      forallb (fun f => match f with Field _ ft _ => well_formed ft end) fields
      && distinct (map field_name fields)
      && distinct (wire_names fields)
      && match typed_tx_number cls with
         | Some _ => negb (existsb (String.eqb "type") (wire_names fields))
         | None => true
         end
  | _ => true
  end.

(** *** Integers on the wire *)

(** [getattr(val, name)] on an instance of a dataclass. *)
Definition attribute (name : string) (val : value) : option value :=
  match val with
  | VObject _ attrs => getattr name attrs
  | _ => None
  end.

(** The integer an instance of [int] or of a quantity class holds. *)
Definition integer_of (val : value) : option Z :=
  match val with
  | VInt n => Some n
  | VAmount n => Some n
  | _ => None
  end.

(** The declared type has no [ErrorCode] in it at the level of the
    value: it is not [ErrorCode], nor a union with such a variant. *)
Fixpoint ints_as_hex (t : ty) : bool :=
  match t with
  | TErrorCode => false
  | TUnion variants => forallb ints_as_hex variants
  | _ => true
  end.

(** Filter parameters from block 5 on. *)
Definition sample_filter : value :=
  VObject "FilterParams"
    [("from_block", VInt 5); ("to_block", VLabel LATEST); ("address", VNone);
     ("topics", VNone)].

(** *** Text produced by the handlers *)

(** No hexadecimal numeral but ["0"] itself starts with a zero. *)
Definition minimal_numeral (digits : string) : bool :=
  String.eqb digits "0" || negb (Py.startswith "0" digits).

Fixpoint no_underscore (s : string) : bool :=
  match s with
  | EmptyString => true
  | String c r => negb (Ascii.eqb c "_") && no_underscore r
  end.

(** [s.endswith("_")]. *)
Fixpoint ends_with_underscore (s : string) : bool :=
  match s with
  | EmptyString => false
  | String c EmptyString => Ascii.eqb c "_"
  | String _ r => ends_with_underscore r
  end.

(** *** The run-time classes of instances *)

(** The class of an instance, as far as [isinstance] tells. *)
Inductive kind : Type :=
| KNone | KBool | KInt | KStr | KBytes | KLabel
| KData (k : TypedDataClass)
| KAmount
| KTuple
| KObject (cls : string).

Definition kind_of (v : value) : kind :=
  match v with
  | VNone => KNone
  | VBool _ => KBool
  | VInt _ => KInt
  | VStr _ => KStr
  | VBytes _ => KBytes
  | VLabel _ => KLabel
  | VData k _ => KData k
  | VAmount _ => KAmount
  | VTuple _ => KTuple
  | VObject cls _ => KObject cls
  end.

Definition kind_eqb (a b : kind) : bool :=
  match a, b with
  | KNone, KNone | KBool, KBool | KInt, KInt | KStr, KStr | KBytes, KBytes
  | KLabel, KLabel | KAmount, KAmount | KTuple, KTuple => true
  | KData x, KData y => TypedDataClass_eqb x y
  | KObject x, KObject y => String.eqb x y
  | _, _ => false
  end.

Definition has_kind (k : kind) (l : list kind) : bool := existsb (kind_eqb k) l.

(** The classes the instances of a declared type have. *)
Fixpoint kinds (t : ty) : list kind :=
  match t with
  | TInt | TErrorCode => [KInt]
  | TStr => [KStr]
  | TBool => [KBool]
  | TBytes => [KBytes]
  | TNone => [KNone]
  | TBlockLabel => [KLabel]
  | TData k => [KData k]
  | TAmount => [KAmount]
  | TTuple _ => [KTuple]
  | TUnion variants => flat_map kinds variants
  | TDataclass cls _ => [KObject cls]
  end.

(** A valid instance of [b] is not taken for an instance of [a] unless
    it is a valid one: the classes differ, or both are tuples and this
    holds of their elements. *)
Fixpoint instances_apart (a b : ty) : bool :=
  match a, b with
  | TTuple x, TTuple y => instances_apart x y
  | _, _ => forallb (fun k => negb (has_kind k (kinds a))) (kinds b)
  end.

Fixpoint ordered_instances_apart (variants : list ty) : bool :=
  match variants with
  | [] => true
  | t :: r => forallb (instances_apart t) r && ordered_instances_apart r
  end.

(** The declared type is one structuring cannot leave: the default of a
    field is a valid instance of the field's type, and what a later
    variant of a union yields is not claimed by an earlier one. *)
Fixpoint well_declared (t : ty) : bool :=
  match t with
  | TTuple elem => well_declared elem
  | TUnion variants => forallb well_declared variants && ordered_instances_apart variants
  | TDataclass _ fields =>
      forallb (fun f => match f with
                        | Field _ ft default =>
                            well_declared ft
                            && match default with
                               | Some dv => valid ft dv
                               | None => true
                               end
                        end) fields
  | _ => true
  end.

(** *** The error record as an instance *)

Definition RPCError_value (e : RPCError) : value :=
  VObject "RPCError"
    [("code", VInt (code e));
     ("message", VStr (message e));
     ("data", match data e with
              | Some bs => VBytes bs
              | None => VNone
              end)].

(** The all-lower-case rule: a stand-in for the hash-derived one where a
    concrete address text is needed. *)
Definition lower_case_rule : list byte -> nat -> bool := fun _ _ => false.

(** A type-2 transaction to an address. *)
Definition sample_transaction : value :=
  VObject "Type2Transaction"
    [("chain_id", VInt 1); ("value", VAmount 1000); ("gas", VInt 21000);
     ("max_fee_per_gas", VAmount 1000000000); ("max_priority_fee_per_gas", VAmount 0);
     ("nonce", VInt 7); ("to", VData Address (repeat xab 20)); ("data", VNone)].

(** *** A transaction type of many digits *)

(** [n] hexadecimal digits [f]. *)
Fixpoint all_f (n : nat) : string :=
  match n with
  | O => EmptyString
  | S n' => String "f" (all_f n')
  end.

(** A numeral of 4000 hexadecimal digits, which is an integer of 4817
    decimal digits. *)
Definition oversized_type : string := String "0" (String "x" (all_f 4000)).

(** *** Deeply nested input *)

(** [n] lists inside one another. *)
Fixpoint nest (n : nat) : JSON :=
  match n with
  | O => JList []
  | S n' => JList [nest n']
  end.


(* ================================================================== *)
(** * Properties *)
(* ================================================================== *)

(** ** The built-ins on examples *)

Example hex_255 : Py.hex 255 = "0xff". Proof. reflexivity. Qed.
Example hex_0 : Py.hex 0 = "0x0". Proof. reflexivity. Qed.
Example hex_neg : Py.hex (-1) = "-0x1". Proof. reflexivity. Qed.
Example int_ex1 : Py.int_base0 "0x1_0" = Some 16%Z. Proof. reflexivity. Qed.
Example int_ex2 : Py.int_base0 "0x" = None. Proof. reflexivity. Qed.
Example int_ex3 : Py.int_base0 "0x__1" = None. Proof. reflexivity. Qed.
Example int_ex4 : Py.int_base0 "0xFf " = Some 255%Z. Proof. reflexivity. Qed.
Example int_ex5 : Py.int_base0 "010" = None. Proof. reflexivity. Qed.
Example int_ex6 : Py.int_base0 " -12" = Some (-12)%Z. Proof. reflexivity. Qed.
Example fromhex_ex : Py.fromhex "0a 0B" = Some [x0a; x0b]. Proof. reflexivity. Qed.
Example split_ex : Py.split "_" "a__b_" = ["a"; ""; "b"; ""]. Proof. reflexivity. Qed.

(** ** Digits and numerals *)

Lemma N_below_In (b : nat) (d : N) :
  (d < N.of_nat b)%N -> In d (map N.of_nat (seq 0 b)).
Proof.
  intros H. apply in_map_iff. exists (N.to_nat d). split.
  - apply N2Nat.id.
  - apply in_seq. lia.
Qed.

Lemma below_16_all (P : N -> bool) :
  forallb P (map N.of_nat (seq 0 16)) = true ->
  forall d, (d < 16)%N -> P d = true.
Proof.
  intros Hall d Hd. rewrite forallb_forall in Hall. apply Hall.
  apply (N_below_In 16). exact Hd.
Qed.

Lemma hex_value_hexdigit (d : N) :
  (d < 16)%N -> Py.hex_value (Py.hexdigit d) = Some d.
Proof.
  intros Hd.
  pose (P := fun d => match Py.hex_value (Py.hexdigit d) with
                      | Some d' => N.eqb d' d
                      | None => false
                      end).
  assert (HP : P d = true) by (apply below_16_all; [vm_compute; reflexivity | exact Hd]).
  unfold P in HP. destruct (Py.hex_value (Py.hexdigit d)) as [d'|]; [|discriminate].
  apply N.eqb_eq in HP. now subst.
Qed.

Lemma hex_value_digit_value (c : ascii) (d : N) :
  Py.hex_value c = Some d -> Py.digit_value c = Some d /\ (d <? 16)%N = true.
Proof.
  unfold Py.hex_value. destruct (Py.digit_value c) as [d'|]; [|discriminate].
  destruct (d' <? 16)%N eqn:E; [|discriminate]. intros [= <-]. now split.
Qed.

Lemma hex_value_not_underscore (c : ascii) (d : N) :
  Py.hex_value c = Some d -> Ascii.eqb c "_" = false.
Proof.
  intros H. destruct (Ascii.eqb c "_") eqn:E; [|reflexivity].
  apply Ascii.eqb_eq in E. subst c. discriminate H.
Qed.

Lemma hex_value_not_space (c : ascii) (d : N) :
  Py.hex_value c = Some d -> Py.int_isspace c = false /\ Py.ascii_isspace c = false.
Proof.
  unfold Py.hex_value, Py.digit_value, Py.int_isspace, Py.ascii_isspace.
  set (n := Py.ord c). intros H.
  destruct ((48 <=? n)%N && (n <=? 57)%N) eqn:E1;
  destruct ((97 <=? n)%N && (n <=? 122)%N) eqn:E2;
  destruct ((65 <=? n)%N && (n <=? 90)%N) eqn:E3; try discriminate H;
  rewrite ?andb_true_iff, ?andb_false_iff, ?N.leb_le, ?N.leb_gt in *;
  split; rewrite ?orb_false_iff, ?andb_false_iff, ?N.leb_gt, ?N.eqb_neq; lia.
Qed.

(** The scan of [int] over a run of hexadecimal digits reads all of
    them. *)
Lemma scan_digits_hex_run (ds rest : string) :
  all_hex ds = true ->
  forall p acc cnt,
    Py.scan_digits 16 (String.append ds rest) p acc cnt =
    match ds with
    | EmptyString => Py.scan_digits 16 rest p acc cnt
    | String _ _ =>
        Py.scan_digits 16 rest false (hex_number acc ds) (cnt + String.length ds)
    end.
Proof.
  induction ds as [|c r IH]; intros Hall p acc cnt; [reflexivity|].
  simpl in Hall. apply andb_true_iff in Hall as [Hc Hr].
  unfold is_hex_digit in Hc. destruct (Py.hex_value c) as [d|] eqn:Ed; [|discriminate].
  destruct (hex_value_digit_value _ _ Ed) as [Hdv Hlt].
  cbn [String.append Py.scan_digits hex_number String.length].
  rewrite (hex_value_not_underscore _ _ Ed), Hdv, Hlt, Ed.
  rewrite (IH Hr). destruct r as [|c' r'].
  - cbn [hex_number String.length]. now rewrite Nat.add_1_r.
  - f_equal. cbn [String.length]. lia.
Qed.

(** *** [hex] *)

Lemma append_assoc (a b c : string) :
  String.append (String.append a b) c = String.append a (String.append b c).
Proof. induction a as [|x a IH]; [reflexivity|]. cbn. now rewrite IH. Qed.

Lemma append_empty_r (a : string) : String.append a EmptyString = a.
Proof. induction a as [|x a IH]; [reflexivity|]. cbn. now rewrite IH. Qed.

Lemma hex_digits_fuel_app (fuel : nat) :
  forall n acc,
    Py.hex_digits_fuel fuel n acc = String.append (Py.hex_digits_fuel fuel n EmptyString) acc.
Proof.
  induction fuel as [|f IH]; intros n acc; [reflexivity|].
  cbn [Py.hex_digits_fuel]. destruct (n <? 16)%N; [reflexivity|].
  rewrite (IH _ (String _ acc)), (IH _ (String _ EmptyString)).
  rewrite append_assoc. reflexivity.
Qed.

Lemma hex_digits_fuel_all_hex (fuel : nat) :
  forall n acc, all_hex acc = true -> all_hex (Py.hex_digits_fuel fuel n acc) = true.
Proof.
  induction fuel as [|f IH]; intros n acc Hacc; [exact Hacc|].
  cbn [Py.hex_digits_fuel].
  assert (Hd : all_hex (String (Py.hexdigit (n mod 16)) acc) = true).
  { cbn [all_hex]. unfold is_hex_digit.
    rewrite hex_value_hexdigit by (apply N.mod_lt; discriminate). exact Hacc. }
  destruct (n <? 16)%N; [exact Hd | apply IH, Hd].
Qed.

Lemma hex_digits_fuel_nonempty (fuel : nat) :
  forall n acc, exists c r, Py.hex_digits_fuel (S fuel) n acc = String c r.
Proof.
  induction fuel as [|f IH]; intros n acc.
  - cbn. destruct (n <? 16)%N; eauto.
  - cbn [Py.hex_digits_fuel]. destruct (n <? 16)%N; [eauto|].
    apply (IH (n / 16)%N).
Qed.

Lemma hex_number_fuel (fuel : nat) :
  forall n tail,
    (n < 16 ^ N.of_nat fuel)%N ->
    hex_number 0 (Py.hex_digits_fuel fuel n tail) = hex_number n tail.
Proof.
  induction fuel as [|f IH]; intros n tail Hn.
  - cbn in Hn. assert (n = 0%N) by lia. subst. reflexivity.
  - cbn [Py.hex_digits_fuel]. destruct (n <? 16)%N eqn:E.
    + cbn [hex_number]. rewrite hex_value_hexdigit by (apply N.mod_lt; discriminate).
      apply N.ltb_lt in E. rewrite N.mod_small by exact E. reflexivity.
    + apply N.ltb_ge in E. rewrite IH.
      * cbn [hex_number]. rewrite hex_value_hexdigit by (apply N.mod_lt; discriminate).
        f_equal. rewrite (N.div_mod n 16) at 3 by discriminate. lia.
      * rewrite Nat2N.inj_succ, N.pow_succ_r' in Hn.
        apply N.Div0.div_lt_upper_bound. exact Hn.
Qed.

Lemma hex_fuel_enough (n : N) : (n < 16 ^ N.of_nat (S (N.to_nat (N.log2 n))))%N.
Proof.
  rewrite Nat2N.inj_succ, N2Nat.id.
  destruct n as [|p]; [reflexivity|].
  apply N.lt_le_trans with (2 ^ N.succ (N.log2 (N.pos p)))%N.
  - apply N.log2_spec. reflexivity.
  - apply N.pow_le_mono_l. lia.
Qed.

Lemma hex_number_hex_digits (n : N) : hex_number 0 (Py.hex_digits n) = n.
Proof.
  unfold Py.hex_digits. rewrite hex_number_fuel by apply hex_fuel_enough. reflexivity.
Qed.

Lemma hex_digits_all_hex (n : N) : all_hex (Py.hex_digits n) = true.
Proof. apply hex_digits_fuel_all_hex. reflexivity. Qed.

Lemma hex_digits_nonempty (n : N) : exists c r, Py.hex_digits n = String c r.
Proof. apply hex_digits_fuel_nonempty. Qed.

(** *** [int(s, 0)] on hexadecimal numerals *)

Lemma int_base0_hex (c : ascii) (r : string) :
  all_hex (String c r) = true ->
  Py.int_base0 (String "0" (String "x" (String c r))) =
  Some (Z.of_N (hex_number 0 (String c r))).
Proof.
  intros Hall.
  pose proof Hall as Hc. cbn [all_hex] in Hc. apply andb_true_iff in Hc as [Hc _].
  unfold is_hex_digit in Hc. destruct (Py.hex_value c) as [d|] eqn:Ed; [|discriminate].
  pose proof (hex_value_not_underscore _ _ Ed) as Hus.
  unfold Py.int_base0. cbn [Py.lstrip].
  change (Py.int_isspace "0") with false. cbv iota.
  unfold Py.int_unsigned.
  change (Ascii.eqb "x" "x") with true. cbn [orb].
  unfold Py.skip_underscore. rewrite Hus.
  unfold Py.int_body. cbn [Py.startswith].
  rewrite Ascii.eqb_sym, Hus. cbn [andb].
  rewrite <- (append_empty_r (String c r)) at 1.
  rewrite (scan_digits_hex_run _ _ Hall).
  cbn [Py.scan_digits String.length Nat.add].
  change (Py.is_pow2_base 16) with true. cbn [negb andb Py.lstrip option_map].
  reflexivity.
Qed.

Lemma startswith_0x (s : string) : Py.startswith "0x" (String "0" (String "x" s)) = true.
Proof. reflexivity. Qed.

Lemma hex_nonneg (n : Z) :
  (0 <= n)%Z -> Py.hex n = String "0" (String "x" (Py.hex_digits (Z.to_N n))).
Proof.
  intros H. unfold Py.hex. destruct (n <? 0)%Z eqn:E; [apply Z.ltb_lt in E; lia|].
  reflexivity.
Qed.

Lemma int_base0_of_hex (n : Z) :
  (0 <= n)%Z -> Py.int_base0 (Py.hex n) = Some n.
Proof.
  intros H. rewrite hex_nonneg by exact H.
  destruct (hex_digits_nonempty (Z.to_N n)) as (c & r & E).
  pose proof (hex_digits_all_hex (Z.to_N n)) as Hall.
  pose proof (hex_number_hex_digits (Z.to_N n)) as Hv.
  rewrite E in *. rewrite int_base0_hex by exact Hall.
  rewrite Hv. f_equal. lia.
Qed.

(** *** [bytes.hex] and [bytes.fromhex] *)

Lemma ascii_all (P : ascii -> bool) :
  forallb P (map ascii_of_nat (seq 0 256)) = true -> forall c, P c = true.
Proof.
  intros Hall c. rewrite forallb_forall in Hall. apply Hall.
  apply in_map_iff. exists (nat_of_ascii c). split.
  - apply ascii_nat_embedding.
  - apply in_seq. pose proof (nat_ascii_bounded c). lia.
Qed.

Lemma same_digit_eq (a b : option N) : same_digit a b = true -> a = b.
Proof.
  destruct a, b; cbn; try discriminate; try reflexivity.
  intros H. apply N.eqb_eq in H. now subst.
Qed.

Lemma hex_value_to_upper (c : ascii) : Py.hex_value (Py.to_upper c) = Py.hex_value c.
Proof.
  apply same_digit_eq.
  apply (ascii_all (fun c => same_digit (Py.hex_value (Py.to_upper c)) (Py.hex_value c))).
  vm_compute. reflexivity.
Qed.

Lemma fromhex_pair (c1 c2 : ascii) (hi lo : N) (b : byte) (s : string) :
  Py.hex_value c1 = Some hi ->
  Py.hex_value c2 = Some lo ->
  Py.byte_of_nibbles hi lo = Some b ->
  Py.fromhex (String c1 (String c2 s)) = option_map (cons b) (Py.fromhex s).
Proof.
  intros H1 H2 Hb. cbn [Py.fromhex].
  destruct (hex_value_not_space _ _ H1) as [_ ->].
  rewrite H1, H2, Hb. destruct (Py.fromhex s); reflexivity.
Qed.

Lemma byte_nibbles (b : byte) :
  (Byte.to_N b / 16 < 16)%N /\ (Byte.to_N b mod 16 < 16)%N /\
  Py.byte_of_nibbles (Byte.to_N b / 16) (Byte.to_N b mod 16) = Some b.
Proof.
  pose proof (Byte.to_N_bounded b) as Hb.
  split; [|split].
  - apply N.Div0.div_lt_upper_bound. lia.
  - apply N.mod_lt. discriminate.
  - unfold Py.byte_of_nibbles. rewrite <- N.div_mod by discriminate.
    apply Byte.of_to_N.
Qed.

Lemma fromhex_byte_cased (b : byte) (u1 u2 : bool) (s : string) :
  Py.fromhex
    (String (if u1 then Py.to_upper (Py.hexdigit (Byte.to_N b / 16)) else Py.hexdigit (Byte.to_N b / 16))
       (String (if u2 then Py.to_upper (Py.hexdigit (Byte.to_N b mod 16)) else Py.hexdigit (Byte.to_N b mod 16)) s)) =
  option_map (cons b) (Py.fromhex s).
Proof.
  destruct (byte_nibbles b) as (Hhi & Hlo & Hb).
  apply fromhex_pair with (hi := (Byte.to_N b / 16)%N) (lo := (Byte.to_N b mod 16)%N).
  - destruct u1; rewrite ?hex_value_to_upper; apply hex_value_hexdigit, Hhi.
  - destruct u2; rewrite ?hex_value_to_upper; apply hex_value_hexdigit, Hlo.
  - exact Hb.
Qed.

Lemma fromhex_bytes_hex (bs : list byte) : Py.fromhex (Py.bytes_hex bs) = Some bs.
Proof.
  induction bs as [|b r IH]; [reflexivity|].
  cbn [Py.bytes_hex]. unfold Py.byte_hex. cbn [String.append].
  rewrite (fromhex_byte_cased b false false), IH. reflexivity.
Qed.

Lemma fromhex_apply_case (upper : nat -> bool) (bs : list byte) :
  forall i, Py.fromhex (apply_case upper i (Py.bytes_hex bs)) = Some bs.
Proof.
  induction bs as [|b r IH]; intros i; [reflexivity|].
  cbn [Py.bytes_hex]. unfold Py.byte_hex. cbn [String.append apply_case].
  rewrite (fromhex_byte_cased b (upper i) (upper (S i))), IH. reflexivity.
Qed.

(** *** Structuring hexadecimal text *)

Lemma prefixed_false_int (val : JSON) :
  prefixed val = false -> _IntoIntFromHex val = Fail NotHexInteger.
Proof.
  destruct val; cbn; try reflexivity. intros ->. reflexivity.
Qed.

Lemma prefixed_false_bytes (val : JSON) :
  prefixed val = false -> _IntoBytesFromHex val = Fail NotHexData.
Proof.
  destruct val; cbn; try reflexivity. intros ->. reflexivity.
Qed.

Lemma prefixed_inv (val : JSON) :
  prefixed val = true -> exists body, val = JStr (String "0" (String "x" body)).
Proof.
  destruct val as [| | | |s| |]; cbn [prefixed]; try discriminate.
  destruct s as [|a [|b body]]; cbn [Py.startswith]; try discriminate.
  - rewrite andb_false_r. discriminate.
  - rewrite andb_true_r. intros H. apply andb_true_iff in H as [Ha Hb].
    apply Ascii.eqb_eq in Ha, Hb. subst. eauto.
Qed.

Lemma IntoBytesFromHex_prefixed (body : string) :
  _IntoBytesFromHex (JStr (String "0" (String "x" body))) =
  match Py.fromhex body with
  | Some bs => Ok bs
  | None => Fail MalformedHex
  end.
Proof. reflexivity. Qed.

Lemma IntoIntFromHex_prefixed (body : string) :
  _IntoIntFromHex (JStr (String "0" (String "x" body))) =
  match Py.int_base0 (String "0" (String "x" body)) with
  | Some n => Ok n
  | None => Raise ValueError
  end.
Proof. reflexivity. Qed.

Lemma hexdigit_of_hex_value (c : ascii) (d : N) :
  Py.hex_value c = Some d -> Py.hexdigit d = Py.to_lower c.
Proof.
  intros H.
  pose proof (ascii_all
    (fun c => match Py.hex_value c with
              | Some d => Ascii.eqb (Py.hexdigit d) (Py.to_lower c)
              | None => true
              end)) as Hall.
  specialize (Hall ltac:(vm_compute; reflexivity) c). cbv beta in Hall.
  rewrite H in Hall. now apply Ascii.eqb_eq.
Qed.

Lemma hex_value_below (c : ascii) (d : N) : Py.hex_value c = Some d -> (d < 16)%N.
Proof.
  intros H. apply hex_value_digit_value in H as [_ H]. now apply N.ltb_lt.
Qed.

Lemma byte_of_nibbles_inv (hi lo : N) (b : byte) :
  (hi < 16)%N -> (lo < 16)%N -> Py.byte_of_nibbles hi lo = Some b ->
  (Byte.to_N b / 16 = hi)%N /\ (Byte.to_N b mod 16 = lo)%N.
Proof.
  intros Hhi Hlo H. unfold Py.byte_of_nibbles in H. apply Byte.to_of_N in H.
  rewrite H. split.
  - rewrite N.mul_comm, N.div_add_l by discriminate. rewrite N.div_small; lia.
  - rewrite N.mul_comm, N.add_comm, N.Div0.mod_add. apply N.mod_small, Hlo.
Qed.

Lemma byte_of_nibbles_some (hi lo : N) :
  (hi < 16)%N -> (lo < 16)%N -> exists b, Py.byte_of_nibbles hi lo = Some b.
Proof.
  intros Hhi Hlo. unfold Py.byte_of_nibbles.
  destruct (Byte.of_N (16 * hi + lo)) as [b|] eqn:E; [eauto|].
  apply Byte.of_N_None_iff in E. lia.
Qed.

(** Two characters at a time. *)
Lemma string_pair_ind (P : string -> Prop) :
  P EmptyString ->
  (forall c, P (String c EmptyString)) ->
  (forall c d s, P s -> P (String c (String d s))) ->
  forall s, P s.
Proof.
  intros H0 H1 H2.
  assert (H : forall s, P s /\ forall c, P (String c s)).
  { induction s as [|d s [IHs IHc]]; split; auto. }
  intros s. apply H.
Qed.

(** Even-length hexadecimal text decodes, to the bytes whose numeral it
    is up to letter case. *)
Lemma fromhex_all_hex (body : string) :
  all_hex body = true -> Nat.even (String.length body) = true ->
  exists bs, Py.fromhex body = Some bs /\ Py.bytes_hex bs = Py.lower body.
Proof.
  induction body as [|c|c d s IH] using string_pair_ind; intros Hall Hev.
  - exists []. split; reflexivity.
  - discriminate Hev.
  - cbn [all_hex] in Hall. apply andb_true_iff in Hall as [Hc Hall].
    apply andb_true_iff in Hall as [Hd Hall].
    unfold is_hex_digit in Hc, Hd.
    destruct (Py.hex_value c) as [hi|] eqn:Ec; [|discriminate].
    destruct (Py.hex_value d) as [lo|] eqn:Ed; [|discriminate].
    destruct (IH Hall Hev) as (bs & Hbs & Hhex).
    destruct (byte_of_nibbles_some hi lo) as [b Hb];
      [eapply hex_value_below; eauto | eapply hex_value_below; eauto |].
    exists (b :: bs). split.
    + rewrite (fromhex_pair c d hi lo b s Ec Ed Hb), Hbs. reflexivity.
    + destruct (byte_of_nibbles_inv hi lo b) as [E1 E2];
        [eapply hex_value_below; eauto | eapply hex_value_below; eauto | exact Hb |].
      cbn [Py.bytes_hex Py.lower]. unfold Py.byte_hex. rewrite E1, E2.
      cbn [String.append]. rewrite Hhex.
      rewrite (hexdigit_of_hex_value _ _ Ec), (hexdigit_of_hex_value _ _ Ed).
      reflexivity.
Qed.

(** White-space-free text that decodes is even-length hexadecimal. *)
Lemma fromhex_no_space_inv (body : string) :
  no_space body = true ->
  forall bs, Py.fromhex body = Some bs ->
  all_hex body = true /\ Nat.even (String.length body) = true.
Proof.
  induction body as [|c|c d s IH] using string_pair_ind; intros Hns bs H.
  - split; reflexivity.
  - cbn in Hns, H. rewrite andb_true_r in Hns. apply negb_true_iff in Hns.
    rewrite Hns in H. destruct (Py.hex_value c); discriminate H.
  - cbn [no_space] in Hns. apply andb_true_iff in Hns as [Hc Hns].
    apply andb_true_iff in Hns as [Hd Hns]. apply negb_true_iff in Hc.
    cbn [Py.fromhex] in H. rewrite Hc in H.
    destruct (Py.hex_value c) as [hi|] eqn:Ec; [|discriminate].
    destruct (Py.hex_value d) as [lo|] eqn:Ed; [|discriminate].
    destruct (Py.byte_of_nibbles hi lo); [|discriminate].
    destruct (Py.fromhex s) as [bs'|] eqn:Es; [|discriminate].
    destruct (IH Hns bs' eq_refl) as [Hall Hev]. split.
    + cbn [all_hex]. unfold is_hex_digit. now rewrite Ec, Ed, Hall.
    + exact Hev.
Qed.

(** ** Field names *)








(** ** The error record *)

Lemma RPCErrorCode_lookup_value (c : RPCErrorCode) :
  RPCErrorCode_lookup (RPCErrorCode_value c) = Some c.
Proof. destruct c; reflexivity. Qed.

Lemma RPCErrorCode_lookup_some (n : Z) (c : RPCErrorCode) :
  RPCErrorCode_lookup n = Some c -> RPCErrorCode_value c = n.
Proof.
  unfold RPCErrorCode_lookup. intros H. apply find_some in H as [_ H].
  now apply Z.eqb_eq.
Qed.

Lemma RPCErrorCode_lookup_none (n : Z) :
  RPCErrorCode_lookup n = None <-> ~ In n (map RPCErrorCode_value RPCErrorCode_members).
Proof.
  unfold RPCErrorCode_lookup. split.
  - intros H Hin. apply in_map_iff in Hin as (c & <- & Hc).
    apply (find_none _ _ H) in Hc. now rewrite Z.eqb_refl in Hc.
  - intros Hn. destruct (find _ _) as [c|] eqn:E; [|reflexivity].
    apply find_some in E as [Hin E]. apply Z.eqb_eq in E. subst n.
    exfalso. apply Hn. now apply in_map.
Qed.

(** ** The dispatcher *)

Lemma list_max_In (f : ty -> nat) (l : list ty) (t : ty) :
  In t l -> (f t <= list_max (map f l))%nat.
Proof.
  induction l as [|x r IH]; [intros []|]. unfold list_max in *. cbn [map fold_right].
  intros [->|H]; [lia|]. specialize (IH H). lia.
Qed.

Lemma variant_depth (variants : list ty) (t : ty) :
  In t variants -> (ty_depth t < ty_depth (TUnion variants))%nat.
Proof.
  intros H. cbn [ty_depth]. pose proof (list_max_In ty_depth _ _ H). lia.
Qed.

Lemma field_depth (cls : string) (fields : list field) (name : string) (t : ty)
    (default : option value) :
  In (Field name t default) fields -> (ty_depth t < ty_depth (TDataclass cls fields))%nat.
Proof.
  intros H. cbn [ty_depth].
  enough ((ty_depth t <= list_max (map (fun f => match f with
                                               | Field _ ft _ => ty_depth ft
                                               end) fields))%nat) by lia.
  unfold list_max.
  induction fields as [|x r IH]; [destruct H|]. cbn [map fold_right].
  destruct H as [->|H]; [lia|]. specialize (IH H). lia.
Qed.

(** ** Mappings and attribute lists *)

Lemma existsb_eqb_In (x : string) (l : list string) :
  existsb (String.eqb x) l = true <-> In x l.
Proof.
  rewrite existsb_exists. split.
  - intros (y & Hy & E). apply String.eqb_eq in E. now subst.
  - intros H. exists x. split; [exact H | apply String.eqb_refl].
Qed.

Lemma distinct_cons (x : string) (r : list string) :
  distinct (x :: r) = true -> ~ In x r /\ distinct r = true.
Proof.
  cbn [distinct]. intros H. apply andb_true_iff in H as [Hx Hr]. split; [|exact Hr].
  intros Hin. apply existsb_eqb_In in Hin. rewrite Hin in Hx. discriminate.
Qed.

Lemma dict_get_In (d : dict) :
  distinct (map fst d) = true ->
  forall w j, In (w, j) d -> dict_get w d = Some j.
Proof.
  induction d as [|[k x] r IH]; intros Hd w j Hin; [destruct Hin|].
  cbn [map fst] in Hd. apply distinct_cons in Hd as [Hk Hr].
  cbn [dict_get]. destruct Hin as [[= -> ->]|Hin].
  - now rewrite String.eqb_refl.
  - destruct (String.eqb k w) eqn:E; [|now apply IH].
    apply String.eqb_eq in E. subst. exfalso. apply Hk.
    change w with (fst (w, j)). now apply in_map.
Qed.

Lemma getattr_In (attrs : list (string * value)) :
  distinct (map fst attrs) = true ->
  forall k a, In (k, a) attrs -> getattr k attrs = Some a.
Proof.
  induction attrs as [|[k' x] r IH]; intros Hd k a Hin; [destruct Hin|].
  cbn [map fst] in Hd. apply distinct_cons in Hd as [Hk Hr].
  cbn [getattr]. destruct Hin as [[= -> ->]|Hin].
  - now rewrite String.eqb_refl.
  - destruct (String.eqb k' k) eqn:E; [|now apply IH].
    apply String.eqb_eq in E. subst. exfalso. apply Hk.
    change k with (fst (k, a)). now apply in_map.
Qed.

Lemma dict_get_set_same (key : string) (x : JSON) (d : dict) :
  dict_get key (dict_set key x d) = Some x.
Proof.
  induction d as [|[k w] r IH]; cbn [dict_set dict_get].
  - now rewrite String.eqb_refl.
  - destruct (String.eqb k key) eqn:E; cbn [dict_get]; rewrite E; [reflexivity|exact IH].
Qed.

Lemma dict_get_set_other (key w : string) (x : JSON) (d : dict) :
  w <> key -> dict_get w (dict_set key x d) = dict_get w d.
Proof.
  intros Hne. induction d as [|[k y] r IH]; cbn [dict_set dict_get].
  - destruct (String.eqb key w) eqn:E; [|reflexivity].
    apply String.eqb_eq in E. congruence.
  - destruct (String.eqb k key) eqn:E; cbn [dict_get].
    + apply String.eqb_eq in E. subst k.
      destruct (String.eqb key w) eqn:E'; [|reflexivity].
      apply String.eqb_eq in E'. congruence.
    + now rewrite IH.
Qed.

(** ** Valid instances *)

Lemma TypedDataClass_eqb_eq (a b : TypedDataClass) :
  TypedDataClass_eqb a b = true -> a = b.
Proof. destruct a, b; cbn; congruence. Qed.

Lemma first_match_find (matches decide : ty -> bool) (variants : list ty) :
  first_match matches decide variants =
  match find matches variants with
  | Some t => decide t
  | None => false
  end.
Proof.
  induction variants as [|t r IH]; [reflexivity|]. cbn [first_match find].
  destruct (matches t); [reflexivity | exact IH].
Qed.

Lemma find_split (matches : ty -> bool) (variants : list ty) (t : ty) :
  find matches variants = Some t ->
  exists before after, variants = before ++ t :: after.
Proof.
  induction variants as [|x r IH]; [discriminate|]. cbn [find].
  destruct (matches x).
  - intros [= ->]. now exists [], r.
  - intros H. destruct (IH H) as (b & a & ->). now exists (x :: b), a.
Qed.

Lemma ordered_apart_before (before after : list ty) (t : ty) :
  ordered_apart (before ++ t :: after) = true ->
  forall x, In x before -> apart x t = true.
Proof.
  induction before as [|y r IH]; intros H x Hin; [destruct Hin|].
  cbn [app ordered_apart] in H. apply andb_true_iff in H as [Hy Hr].
  destruct Hin as [->|Hin]; [|now apply IH].
  rewrite forallb_forall in Hy. apply Hy, in_elt.
Qed.

Lemma attrs_match_names (check : ty -> value -> bool) (fields : list field) :
  forall attrs, attrs_match check fields attrs = true ->
  map fst attrs = map field_name fields.
Proof.
  induction fields as [|[n t d] r IH]; intros [|[k a] ar]; cbn [attrs_match];
    try discriminate; [reflexivity|].
  intros H. apply andb_true_iff in H as [H Hr]. apply andb_true_iff in H as [Hn _].
  apply String.eqb_eq in Hn. subst. cbn. f_equal. now apply IH.
Qed.

(** ** Shapes on the wire *)

Lemma has_shape_In (s : shape) (l : list shape) : has_shape s l = true <-> In s l.
Proof.
  unfold has_shape. rewrite existsb_exists. split.
  - intros (y & Hy & E). destruct s, y; try discriminate; exact Hy.
  - intros H. exists s. split; [exact H | destruct s; reflexivity].
Qed.

Lemma has_shape_flat_map (s : shape) (f : ty -> list shape) (l : list ty) (t : ty) :
  In t l -> has_shape s (f t) = true -> has_shape s (flat_map f l) = true.
Proof.
  rewrite !has_shape_In. intros Ht Hs. apply in_flat_map. eauto.
Qed.

Lemma has_shape_flat_map_false (s : shape) (f : ty -> list shape) (l : list ty) (t : ty) :
  In t l -> has_shape s (flat_map f l) = false -> has_shape s (f t) = false.
Proof.
  intros Ht Hs. destruct (has_shape s (f t)) eqn:E; [|reflexivity].
  now rewrite (has_shape_flat_map s f l t Ht E) in Hs.
Qed.

Lemma shape_hex (n : Z) : (0 <= n)%Z -> shape_of (JStr (Py.hex n)) = SHex.
Proof. intros H. now rewrite hex_nonneg. Qed.

Lemma shape_label (l : BlockLabel) : shape_of (JStr (BlockLabel_value l)) = SText.
Proof. destruct l; reflexivity. Qed.

Lemma BlockLabel_lookup_shape (val : JSON) (l : BlockLabel) :
  BlockLabel_lookup val = Some l -> shape_of val = SText.
Proof.
  destruct val; cbn [BlockLabel_lookup]; try discriminate.
  intros H. apply find_some in H as [_ H]. apply String.eqb_eq in H. subst.
  apply shape_label.
Qed.

Lemma shape_not_hex (val : JSON) : shape_of val <> SHex -> prefixed val = false.
Proof.
  destruct val; cbn [shape_of prefixed]; try reflexivity.
  destruct (Py.startswith "0x" s); congruence.
Qed.

Lemma IntoIntFromHex_hex (n : Z) :
  (0 <= n)%Z -> _IntoIntFromHex (JStr (Py.hex n)) = Ok n.
Proof.
  intros H. pose proof (int_base0_of_hex n H) as E.
  rewrite hex_nonneg in * by exact H. rewrite IntoIntFromHex_prefixed, E. reflexivity.
Qed.

Lemma IntoBytesFromHex_hex (bs : list byte) :
  _IntoBytesFromHex (JStr (String "0" (String "x" (Py.bytes_hex bs)))) = Ok bs.
Proof. now rewrite IntoBytesFromHex_prefixed, fromhex_bytes_hex. Qed.

Section RoundTrip.

Variable cs : list byte -> nat -> bool.

Lemma valid_union (variants : list ty) (v : value) :
  valid (TUnion variants) v = true ->
  exists t, find (fun t' => isinstance t' v) variants = Some t /\ valid t v = true.
Proof.
  cbn [valid]. rewrite first_match_find.
  destruct (find _ variants) as [t|]; [eauto | discriminate].
Qed.

Lemma IntoTypedData_hex (k : TypedDataClass) (bs : list byte) (body : string) :
  Py.fromhex body = Some bs ->
  _IntoTypedData k (JStr (String "0" (String "x" body))) = TypedData_new k bs.
Proof.
  intros H. unfold _IntoTypedData. rewrite IntoBytesFromHex_prefixed, H. reflexivity.
Qed.

Lemma unstructure_data (f : ty -> value -> UResult) (k : TypedDataClass) (bs : list byte) :
  exists body,
    UNSTRUCTURER cs f (TData k) (VData k bs) = Ok (JStr (String "0" (String "x" body)))
    /\ Py.fromhex body = Some bs.
Proof.
  destruct k; cbn [UNSTRUCTURER _AsTypedData _AsAddress];
    try (exists (Py.bytes_hex bs); split; [reflexivity | apply fromhex_bytes_hex]).
  exists (apply_case (cs bs) O (Py.bytes_hex bs)). split; [reflexivity|].
  apply fromhex_apply_case.
Qed.

(** What a valid instance unstructures to has one of the shapes its
    type emits. *)
Lemma emits_sound (n : nat) :
  forall t v j,
    valid t v = true -> unstructure_as cs n t v = Ok j ->
    has_shape (shape_of j) (emits t) = true.
Proof.
  induction n as [|n IH]; intros t v j Hv Hu; [discriminate|].
  cbn [unstructure_as] in Hu.
  destruct t as [| | | | | | |k| |elem|variants|cls fields].
  - destruct v; try discriminate. cbn in Hv, Hu. injection Hu as <-.
    apply Z.leb_le in Hv. now rewrite shape_hex.
  - destruct v; try discriminate. cbn in Hu. injection Hu as <-.
    cbn [shape_of emits]. destruct (Py.startswith "0x" s); reflexivity.
  - destruct v; try discriminate. cbn in Hu. now injection Hu as <-.
  - destruct v; try discriminate. cbn in Hu. now injection Hu as <-.
  - destruct v; try discriminate. cbn in Hu. now injection Hu as <-.
  - destruct v; try discriminate. cbn in Hu. now injection Hu as <-.
  - destruct v; try discriminate. cbn in Hu. injection Hu as <-.
    now rewrite shape_label.
  - destruct v; try discriminate. cbn [valid] in Hv.
    apply andb_true_iff in Hv as [Hk _]. apply TypedDataClass_eqb_eq in Hk. subst k0.
    destruct (unstructure_data (unstructure_as cs n) k bs) as (body & E & _).
    rewrite E in Hu. now injection Hu as <-.
  - destruct v; try discriminate. cbn in Hv, Hu. injection Hu as <-.
    apply Z.leb_le in Hv. now rewrite shape_hex.
  - destruct v; try discriminate. cbn [UNSTRUCTURER AsTuple] in Hu.
    destruct (unstructure_elems _ _ _); try discriminate. cbn in Hu. now injection Hu as <-.
  - apply valid_union in Hv as (t & Hf & Hv).
    cbn [UNSTRUCTURER] in Hu. unfold AsUnion in Hu. rewrite Hf in Hu.
    cbn [emits]. apply find_some in Hf as [Hin _].
    eapply has_shape_flat_map; [exact Hin|]. eapply IH; eauto.
  - cbn [UNSTRUCTURER] in Hu. destruct v; try (cbn in Hv; discriminate).
    unfold _AsTypedTx, AsDataclassToDict in Hu.
    destruct (unstructure_fields _ _ _ _) as [d| |]; cbn in Hu.
    + destruct (typed_tx_number cls); cbn in Hu; now injection Hu as <-.
    + destruct (typed_tx_number cls); discriminate.
    + destruct (typed_tx_number cls); discriminate.
Qed.

(** Outside the shapes a type accepts, structuring fails with the
    codec's own error. *)
Lemma accepts_sound (n : nat) :
  forall t j,
    (ty_depth t < n)%nat -> has_shape (shape_of j) (accepts t) = false ->
    exists e, structure_into n t j = Fail e.
Proof.
  induction n as [|n IH]; intros t j Hd Hs; [lia|].
  cbn [structure_into].
  assert (Hhex : accepts t = [SHex] -> prefixed j = false).
  { intros E. rewrite E in Hs. apply shape_not_hex. intros E'. rewrite E' in Hs. discriminate. }
  destruct t as [| | | | | | |k| |elem|variants|cls fields]; cbn [STRUCTURER].
  - rewrite prefixed_false_int by now apply Hhex. cbn. eauto.
  - destruct j; cbn; eauto. exfalso. cbn [shape_of accepts] in Hs.
    destruct (Py.startswith "0x" s); discriminate Hs.
  - destruct j; cbn; eauto. discriminate.
  - rewrite prefixed_false_bytes by now apply Hhex. cbn. eauto.
  - destruct j; cbn; eauto. discriminate.
  - destruct j; cbn; eauto. discriminate.
  - unfold _IntoBlockLabel. destruct (BlockLabel_lookup j) as [l|] eqn:E.
    + apply BlockLabel_lookup_shape in E. rewrite E in Hs. discriminate.
    + destruct j as [|b|z|m e|s|items|entries]; try discriminate Hs;
        cbn [repr_raises]; eauto.
      destruct (Py.int_str_allowed z); eauto.
  - unfold _IntoTypedData. rewrite prefixed_false_bytes by now apply Hhex. cbn. eauto.
  - unfold _IntoTypedQuantity. rewrite prefixed_false_int by now apply Hhex. cbn. eauto.
  - destruct j; cbn; eauto. discriminate.
  - cbn [accepts] in Hs.
    assert (Hall : forall t, In t variants -> exists e, structure_into n t j = Fail e).
    { intros t Ht. apply IH.
      - pose proof (variant_depth _ _ Ht). lia.
      - eapply has_shape_flat_map_false; eauto. }
    clear Hs Hd Hhex. induction variants as [|t r IHr]; cbn [IntoUnion]; [eauto|].
    destruct (Hall t (or_introl eq_refl)) as [e ->].
    apply IHr. intros t' Ht'. apply Hall. now right.
  - destruct j; try discriminate Hs;
      destruct (typed_tx_number cls); cbn; eauto.
Qed.

(** *** Sequences *)

Lemma elems_roundtrip (f : value -> UResult) (g : JSON -> SResult) (items : list value) :
  (forall v, In v items -> exists j, f v = Ok j /\ g j = Ok v) ->
  forall i i', exists js,
    unstructure_elems f i items = Ok js /\ structure_elems g i' js = Ok items.
Proof.
  induction items as [|v r IH]; intros H i i'.
  - exists []. split; reflexivity.
  - destruct (H v (or_introl eq_refl)) as (j & Hf & Hg).
    destruct (IH (fun x Hx => H x (or_intror Hx)) (S i) (S i')) as (js & Hu & Hs).
    exists (j :: js). cbn [unstructure_elems structure_elems].
    rewrite Hf, Hg. cbn. rewrite Hu, Hs. split; reflexivity.
Qed.

Lemma elems_apart (f : value -> UResult) (g : JSON -> SResult) (items : list value) :
  (forall v j, In v items -> f v = Ok j -> (exists e, g j = Fail e) \/ g j = Ok v) ->
  forall i i' js,
    unstructure_elems f i items = Ok js ->
    (exists e, structure_elems g i' js = Fail e) \/ structure_elems g i' js = Ok items.
Proof.
  induction items as [|v r IH]; intros H i i' js Hu.
  - cbn in Hu. injection Hu as <-. now right.
  - cbn [unstructure_elems] in Hu.
    destruct (f v) as [j| |] eqn:Ef; try discriminate. cbn in Hu.
    destruct (unstructure_elems f (S i) r) as [js'| |] eqn:Er; try discriminate.
    cbn in Hu. injection Hu as <-. cbn [structure_elems].
    destruct (H v j (or_introl eq_refl) Ef) as [[e Hg]|Hg]; rewrite Hg; cbn; [eauto|].
    destruct (IH (fun x y Hx => H x y (or_intror Hx)) (S i) (S i') js' Er) as [[e Hr]|Hr];
      rewrite Hr; cbn; eauto.
Qed.

Lemma apart_cases (a b : ty) :
  apart a b = true ->
  (exists x y, a = TTuple x /\ b = TTuple y /\ apart x y = true)
  \/ forallb (fun s => negb (has_shape s (accepts a))) (emits b) = true.
Proof.
  destruct a; try (intros H; right; exact H).
  destruct b; try (intros H; right; exact H).
  intros H. left. eauto.
Qed.

(** What a later variant emits is rejected by an earlier one that is
    apart from it, unless it reads back as the same value. *)
Lemma apart_sound (n : nat) :
  forall a b v j,
    (ty_depth a < n)%nat -> apart a b = true -> valid b v = true ->
    unstructure_as cs n b v = Ok j ->
    (exists e, structure_into n a j = Fail e) \/ structure_into n a j = Ok v.
Proof.
  induction n as [|n IH]; intros a b v j Hd Hap Hv Hu; [lia|].
  destruct (apart_cases _ _ Hap) as [(x & y & -> & -> & Hxy)|Hsh].
  - destruct v; try discriminate Hv. cbn [valid] in Hv.
    cbn [unstructure_as UNSTRUCTURER AsTuple] in Hu.
    destruct (unstructure_elems (unstructure_as cs n y) 0 items) as [js| |] eqn:Ej;
      try discriminate.
    cbn in Hu. injection Hu as <-.
    cbn [structure_into STRUCTURER IntoTuple].
    destruct (elems_apart (unstructure_as cs n y) (structure_into n x) items) with
      (i := O) (i' := O) (js := js) as [[e He]|He]; [|exact Ej| |].
    + intros v j Hin Hj. apply (IH x y v j); [cbn in Hd; lia|exact Hxy| |exact Hj].
      rewrite forallb_forall in Hv. now apply Hv.
    + rewrite He. cbn. eauto.
    + rewrite He. cbn. now right.
  - left. apply accepts_sound; [exact Hd|].
    pose proof (emits_sound _ _ _ _ Hv Hu) as He. apply has_shape_In in He.
    rewrite forallb_forall in Hsh. apply Hsh in He. now apply negb_true_iff.
Qed.

Lemma IntoUnion_first (g : ty -> JSON -> SResult) (before after : list ty) (t : ty)
    (j : JSON) (v : value) :
  (forall x, In x before -> (exists e, g x j = Fail e) \/ g x j = Ok v) ->
  g t j = Ok v ->
  IntoUnion g (before ++ t :: after) j = Ok v.
Proof.
  intros Hb Ht. induction before as [|x r IH]; cbn [app IntoUnion].
  - now rewrite Ht.
  - destruct (Hb x (or_introl eq_refl)) as [[e ->]| ->]; [|reflexivity].
    apply IH. intros y Hy. apply Hb. now right.
Qed.

(** *** Records *)

Lemma fields_roundtrip (f : ty -> value -> UResult) (g : ty -> JSON -> SResult)
    (fields : list field) :
  forall attrs,
    attrs_match valid fields attrs = true ->
    (forall name t default v,
        In (Field name t default) fields -> valid t v = true ->
        exists j, f t v = Ok j /\ g t j = Ok v) ->
    forall attrs0,
      (forall k a, In (k, a) attrs -> getattr k attrs0 = Some a) ->
      exists d,
        unstructure_fields f _to_camel_case fields attrs0 = Ok d
        /\ map fst d = wire_names fields
        /\ forall d0,
             (forall w j, In (w, j) d -> dict_get w d0 = Some j) ->
             structure_fields g _to_camel_case fields d0 = Ok attrs.
Proof.
  induction fields as [|[name t default] r IH]; intros [|[k a] ar] Hm Hrt attrs0 Hget;
    cbn [attrs_match] in Hm; try discriminate.
  - exists []. repeat split; reflexivity.
  - apply andb_true_iff in Hm as [Hm Hr]. apply andb_true_iff in Hm as [Hn Hv].
    apply String.eqb_eq in Hn. subst k.
    destruct (Hrt name t default a (or_introl eq_refl) Hv) as (j & Hf & Hg).
    destruct (IH ar Hr (fun n' t' d' v' Hin => Hrt n' t' d' v' (or_intror Hin)) attrs0
                (fun k' a' Hin => Hget k' a' (or_intror Hin))) as (d & Hu & Hk & Hs).
    exists ((_to_camel_case name, j) :: d). split; [|split].
    + cbn [unstructure_fields]. rewrite (Hget name a (or_introl eq_refl)), Hf. cbn.
      rewrite Hu. reflexivity.
    + cbn [map fst wire_names field_name]. f_equal. exact Hk.
    + intros d0 Hd0. cbn [structure_fields].
      rewrite (Hd0 _ j (or_introl eq_refl)), Hg. cbn.
      rewrite (Hs d0 (fun w x Hin => Hd0 w x (or_intror Hin))). reflexivity.
Qed.

Lemma well_formed_field (cls : string) (fields : list field) (name : string) (t : ty)
    (default : option value) :
  well_formed (TDataclass cls fields) = true ->
  In (Field name t default) fields -> well_formed t = true.
Proof.
  cbn [well_formed]. intros H Hin.
  repeat (apply andb_true_iff in H as [H _]).
  rewrite forallb_forall in H. exact (H _ Hin).
Qed.

(** *** The round trip at every declared type *)

Lemma roundtrip_at (n : nat) :
  forall t v,
    (ty_depth t < n)%nat -> well_formed t = true -> valid t v = true ->
    exists j, unstructure_as cs n t v = Ok j /\ structure_into n t j = Ok v.
Proof.
  induction n as [|n IH]; intros t v Hd Hwf Hv; [lia|].
  cbn [unstructure_as structure_into].
  destruct t as [| | | | | | |k| |elem|variants|cls fields].
  - destruct v; try discriminate Hv. cbn [valid] in Hv. apply Z.leb_le in Hv.
    exists (JStr (Py.hex n0)). split; [reflexivity|].
    cbn [STRUCTURER]. now rewrite IntoIntFromHex_hex.
  - destruct v; try discriminate Hv. exists (JStr s). split; reflexivity.
  - destruct v; try discriminate Hv. exists (JBool b). split; reflexivity.
  - destruct v; try discriminate Hv.
    exists (JStr (String "0" (String "x" (Py.bytes_hex bs)))). split; [reflexivity|].
    cbn [STRUCTURER]. now rewrite IntoBytesFromHex_hex.
  - destruct v; try discriminate Hv. exists JNull. split; reflexivity.
  - destruct v; try discriminate Hv. exists (JInt n0). split; reflexivity.
  - destruct v; try discriminate Hv. exists (JStr (BlockLabel_value l)).
    split; [reflexivity|]. destruct l; reflexivity.
  - destruct v; try discriminate Hv. cbn [valid] in Hv.
    apply andb_true_iff in Hv as [Hk Hlen]. apply TypedDataClass_eqb_eq in Hk. subst k0.
    destruct (unstructure_data (unstructure_as cs n) k bs) as (body & E & Hb).
    exists (JStr (String "0" (String "x" body))). split; [exact E|].
    cbn [STRUCTURER]. rewrite (IntoTypedData_hex _ _ _ Hb).
    unfold TypedData_new. now rewrite Hlen.
  - destruct v; try discriminate Hv. cbn [valid] in Hv.
    exists (JStr (Py.hex n0)). split; [reflexivity|].
    cbn [STRUCTURER]. unfold _IntoTypedQuantity.
    rewrite IntoIntFromHex_hex by now apply Z.leb_le. cbn. unfold Amount_new.
    apply Z.leb_le in Hv. destruct (n0 <? 0)%Z eqn:E; [apply Z.ltb_lt in E; lia|].
    reflexivity.
  - destruct v; try discriminate Hv. cbn [valid] in Hv. cbn [well_formed] in Hwf.
    cbn [ty_depth] in Hd. rewrite forallb_forall in Hv.
    destruct (elems_roundtrip (unstructure_as cs n elem) (structure_into n elem) items)
      with (i := O) (i' := O) as (js & Hu & Hs).
    { intros x Hx. apply IH; [lia|exact Hwf|now apply Hv]. }
    exists (JList js). cbn [UNSTRUCTURER STRUCTURER AsTuple IntoTuple].
    rewrite Hu, Hs. split; reflexivity.
  - destruct (valid_union _ _ Hv) as (t & Hfind & Hvt).
    cbn [well_formed] in Hwf. apply andb_true_iff in Hwf as [Hwfs Hord].
    pose proof (find_some _ _ Hfind) as [Hin _].
    pose proof (variant_depth _ _ Hin) as Hdt.
    rewrite forallb_forall in Hwfs.
    destruct (IH t v ltac:(lia) (Hwfs _ Hin) Hvt) as (j & Hu & Hs).
    exists j. cbn [UNSTRUCTURER STRUCTURER]. unfold AsUnion. rewrite Hfind.
    split; [exact Hu|].
    destruct (find_split _ _ _ Hfind) as (before & after & E). subst variants.
    apply IntoUnion_first; [|exact Hs].
    intros x Hx. apply (apart_sound n x t v j); [| |exact Hvt|exact Hu].
    + pose proof (variant_depth (before ++ t :: after) x
                    ltac:(apply in_or_app; now left)). lia.
    + eapply ordered_apart_before; eauto.
  - destruct v; try discriminate Hv. cbn [valid] in Hv.
    apply andb_true_iff in Hv as [Hcls Hm]. apply String.eqb_eq in Hcls. subst cls0.
    pose proof Hwf as Hwf'. cbn [well_formed] in Hwf'.
    apply andb_true_iff in Hwf' as [Hwf' Htype].
    apply andb_true_iff in Hwf' as [Hwf' Hwire].
    apply andb_true_iff in Hwf' as [_ Hnames].
    pose proof (attrs_match_names _ _ _ Hm) as Hattrs.
    destruct (fields_roundtrip (unstructure_as cs n) (structure_into n) fields attrs Hm)
      with (attrs0 := attrs) as (d & Hu & Hk & Hs).
    { intros name t default v Hin Hvt. apply IH; [|eapply well_formed_field; eauto|exact Hvt].
      pose proof (field_depth cls _ _ _ _ Hin). lia. }
    { apply getattr_In. now rewrite Hattrs. }
    assert (Hd0 : forall w j, In (w, j) d -> dict_get w d = Some j).
    { apply dict_get_In. now rewrite Hk. }
    cbn [UNSTRUCTURER STRUCTURER]. unfold AsDataclassToDict, IntoDataclassFromMapping.
    destruct (typed_tx_number cls) as [type_num|] eqn:Etx.
    + unfold typed_tx_number in Etx.
      destruct (String.eqb cls "Type2Transaction"); [|discriminate]. injection Etx as <-.
      exists (JDict (dict_set "type" (JStr (Py.hex 2)) d)). split.
      * unfold _AsTypedTx. rewrite Hu. reflexivity.
      * unfold _IntoTypedTx, dict_contains, dict_get_or_none.
        rewrite dict_get_set_same. cbn [negb].
        destruct n as [|n']; [cbn [ty_depth] in Hd; lia|]. cbn [structure_into STRUCTURER].
        rewrite (IntoIntFromHex_hex 2) by lia. cbn [bind differs_from Z.eqb Pos.eqb negb].
        rewrite Hs; [reflexivity|].
        intros w j Hin. rewrite dict_get_set_other; [now apply Hd0|].
        intros ->. apply negb_true_iff in Htype.
        assert (Hw : In "type" (wire_names fields)).
        { rewrite <- Hk. change "type" with (fst ("type", j)). now apply in_map. }
        apply existsb_eqb_In in Hw. congruence.
    + exists (JDict d). rewrite Hu, (Hs d Hd0). split; reflexivity.
Qed.

End RoundTrip.

(* ================================================================== *)
(** ** The hexadecimal codec *)
(* ================================================================== *)

(** C3 (hex round trip).  For every non-negative integer [n], the text
    [_AsIntToHex] produces for [n] is structured back into [n] by
    [_IntoIntFromHex]; for every byte sequence [bs], the text
    [_AsBytesToHex] produces is structured back into [bs] by
    [_IntoBytesFromHex]. *)
Theorem hex_roundtrip (n : Z) (bs : list byte) :
  (0 <= n)%Z ->
  (exists j, _AsIntToHex (VInt n) = Ok j /\ _IntoIntFromHex j = Ok n)
  /\ (exists j, _AsBytesToHex (VBytes bs) = Ok j /\ _IntoBytesFromHex j = Ok bs).
Proof.
  intros Hn. split.
  - exists (JStr (Py.hex n)). split; [reflexivity|]. now apply IntoIntFromHex_hex.
  - exists (JStr (String "0" (String "x" (Py.bytes_hex bs)))). split; [reflexivity|].
    apply IntoBytesFromHex_hex.
Qed.

(** The round trip at 255 and at the bytes 00 ff. *)
Lemma hex_roundtrip_witness :
  (0 <= 255)%Z
  /\ (exists j, _AsIntToHex (VInt 255) = Ok j /\ _IntoIntFromHex j = Ok 255%Z)
  /\ (exists j, _AsBytesToHex (VBytes [x00; xff]) = Ok j
                /\ _IntoBytesFromHex j = Ok [x00; xff]).
Proof.
  split; [lia|]. apply (hex_roundtrip 255 [x00; xff]). lia.
Defined.

(** C2, as the claim states it, fails: ["0x1_0"] and ["0xff "] are not
    [0x] followed by hexadecimal digits only, yet structure into 16 and
    255; [0x] alone and ["0xzz"] leave [_IntoIntFromHex] as a bare
    [ValueError], not as the codec's error; and ["0x0a 0b"], of odd
    length and with a blank, structures into two bytes. *)
Lemma hex_structuring_counterexample :
  (hex_integer_form (JStr "0x1_0") = false /\ _IntoIntFromHex (JStr "0x1_0") = Ok 16%Z)
  /\ (hex_integer_form (JStr "0xff ") = false /\ _IntoIntFromHex (JStr "0xff ") = Ok 255%Z)
  /\ _IntoIntFromHex (JStr "0x") = Raise ValueError
  /\ _IntoIntFromHex (JStr "0xzz") = Raise ValueError
  /\ (hex_bytes_form (JStr "0x0a 0b") = false
      /\ _IntoBytesFromHex (JStr "0x0a 0b") = Ok [x0a; x0b]).
Proof. repeat split; reflexivity. Qed.

(** C2, amended.  Structuring into [int] returns the unsigned base-16
    value of every string made of [0x] and at least one hexadecimal
    digit (in either case), and fails with the codec's error on every
    value that is not a string starting with [0x].  Structuring into
    [bytes] never raises anything but the codec's error: it fails with
    it on every value that is not a string starting with [0x] and on
    every such string that does not decode; it decodes every [0x]
    followed by an even number of hexadecimal digits, to the bytes
    that text is the numeral of; on text without white space it
    decodes exactly those; and white space in front of a pair of
    digits is skipped.  The built-in behind [int] also reads a single
    underscore between digits and white space after them. *)
Theorem hex_structuring :
  (forall val, hex_integer_form val = true ->
     exists digits,
       val = JStr (String "0" (String "x" digits))
       /\ _IntoIntFromHex val = Ok (Z.of_N (hex_number 0 digits)))
  /\ (forall val, prefixed val = false ->
        _IntoIntFromHex val = Fail NotHexInteger
        /\ _IntoBytesFromHex val = Fail NotHexData)
  /\ (forall val,
        (exists bs, _IntoBytesFromHex val = Ok bs)
        \/ (exists e, _IntoBytesFromHex val = Fail e))
  /\ (forall val, hex_bytes_form val = true ->
        exists body bs,
          val = JStr (String "0" (String "x" body))
          /\ _IntoBytesFromHex val = Ok bs
          /\ Py.bytes_hex bs = Py.lower body)
  /\ (forall body, no_space body = true ->
        ((exists bs, _IntoBytesFromHex (JStr (String "0" (String "x" body))) = Ok bs)
         <-> hex_bytes_form (JStr (String "0" (String "x" body))) = true))
  /\ (forall c body, Py.ascii_isspace c = true ->
        _IntoBytesFromHex (JStr (String "0" (String "x" (String c body)))) =
        _IntoBytesFromHex (JStr (String "0" (String "x" body))))
  /\ _IntoIntFromHex (JStr "0x1_0") = Ok 16%Z
  /\ _IntoIntFromHex (JStr "0xff ") = Ok 255%Z.
Proof.
  split; [|split; [|split; [|split; [|split; [|split; [|split]]]]]];
    [| | | | | |reflexivity|reflexivity].
  - intros val H.
    assert (Hp : prefixed val = true).
    { destruct val; try discriminate H. cbn [hex_integer_form prefixed] in *.
      now destruct (Py.startswith "0x" s). }
    destruct (prefixed_inv val Hp) as [body ->].
    cbn [hex_integer_form Py.startswith Py.drop] in H.
    change (Ascii.eqb "0" "0") with true in H. change (Ascii.eqb "x" "x") with true in H.
    cbn [andb] in H. apply andb_true_iff in H as [Hlen Hall].
    destruct body as [|c r]; [discriminate Hlen|].
    exists (String c r). split; [reflexivity|].
    rewrite IntoIntFromHex_prefixed, int_base0_hex by exact Hall. reflexivity.
  - intros val H. split; [now apply prefixed_false_int | now apply prefixed_false_bytes].
  - intros val. unfold _IntoBytesFromHex. destruct val; eauto.
    destruct (negb _); eauto. destruct (Py.fromhex _); eauto.
  - intros val H.
    assert (Hp : prefixed val = true).
    { destruct val; try discriminate H. cbn [hex_bytes_form prefixed] in *.
      now destruct (Py.startswith "0x" s). }
    destruct (prefixed_inv val Hp) as [body ->].
    cbn [hex_bytes_form Py.startswith Py.drop] in H.
    change (Ascii.eqb "0" "0") with true in H. change (Ascii.eqb "x" "x") with true in H.
    cbn [andb] in H. apply andb_true_iff in H as [Hall Hev].
    destruct (fromhex_all_hex body Hall Hev) as (bs & Hbs & Hhex).
    exists body, bs. rewrite IntoBytesFromHex_prefixed, Hbs. auto.
  - intros body Hns. rewrite IntoBytesFromHex_prefixed.
    cbn [hex_bytes_form Py.startswith Py.drop].
    change (Ascii.eqb "0" "0") with true. change (Ascii.eqb "x" "x") with true.
    cbn [andb]. split.
    + intros [bs H]. destruct (Py.fromhex body) as [bs'|] eqn:E; [|discriminate].
      destruct (fromhex_no_space_inv body Hns bs' E) as [-> ->]. reflexivity.
    + intros H. apply andb_true_iff in H as [Hall Hev].
      destruct (fromhex_all_hex body Hall Hev) as (bs & -> & _). eauto.
  - intros c body Hc. rewrite !IntoBytesFromHex_prefixed. cbn [Py.fromhex].
    now rewrite Hc.
Qed.

(* ================================================================== *)
(** ** Fixed-length data *)
(* ================================================================== *)

Lemma structure_data (k : TypedDataClass) (bs : list byte) :
  structure (TData k) (JStr (String "0" (String "x" (Py.bytes_hex bs)))) =
  TypedData_new k bs.
Proof.
  unfold structure. change recursion_limit with (S 999). cbn [structure_into STRUCTURER].
  apply IntoTypedData_hex, fromhex_bytes_hex.
Qed.

(** C7 (length invariant).  For each fixed-length class, constructing
    from, or structuring the hexadecimal text of, a byte sequence of
    exactly [_length()] bytes succeeds with that sequence, and of any
    other length fails with [ValidationError]; the length is 32 for
    [LogTopic], [BlockHash], [TxHash], [TrieHash] and [UnclesHash], 8
    for [BlockNonce] and 256 for [LogsBloom]. *)
Theorem fixed_length_construction :
  (forall k bs, List.length bs = _length k ->
     TypedData_new (E := StructuringError) k bs = Ok (VData k bs)
     /\ structure (TData k) (JStr (String "0" (String "x" (Py.bytes_hex bs)))) =
        Ok (VData k bs))
  /\ (forall k bs, List.length bs <> _length k ->
        TypedData_new (E := StructuringError) k bs =
          Raise (ValidationError (_length k) (List.length bs))
        /\ structure (TData k) (JStr (String "0" (String "x" (Py.bytes_hex bs)))) =
           Raise (ValidationError (_length k) (List.length bs)))
  /\ map _length [LogTopic; BlockHash; TxHash; TrieHash; UnclesHash] = [32; 32; 32; 32; 32]%nat
  /\ _length BlockNonce = 8%nat
  /\ _length LogsBloom = 256%nat.
Proof.
  split; [|split; [|repeat split]].
  - intros k bs H. rewrite structure_data. unfold TypedData_new.
    apply Nat.eqb_eq in H. rewrite H. split; reflexivity.
  - intros k bs H. rewrite structure_data. unfold TypedData_new.
    apply Nat.eqb_neq in H. rewrite H. split; reflexivity.
Qed.

(* ================================================================== *)
(** ** The error record *)
(* ================================================================== *)

(** C8 ([parsed_code]).  For every [RPCError], [parsed_code] is the
    member of [RPCErrorCode] whose value is the code, when the code is
    one of -32000, -32600, -32601, -32602 and 3, and is [None] for
    every other code; being a total function, it never fails. *)
Theorem parsed_code_classifies (e : RPCError) :
  (forall c, parsed_code e = Some c <-> code e = RPCErrorCode_value c)
  /\ (parsed_code e = None <-> ~ In (code e) [-32000; -32600; -32601; -32602; 3]%Z)
  /\ (In (code e) [-32000; -32600; -32601; -32602; 3]%Z ->
      exists c, parsed_code e = Some c).
Proof.
  assert (Hp : parsed_code e = RPCErrorCode_lookup (code e)).
  { unfold parsed_code. destruct (RPCErrorCode_lookup (code e)); reflexivity. }
  rewrite Hp. split; [|split].
  - intros c. split.
    + intros H. symmetry. now apply RPCErrorCode_lookup_some.
    + intros ->. apply RPCErrorCode_lookup_value.
  - apply RPCErrorCode_lookup_none.
  - intros H. destruct (RPCErrorCode_lookup (code e)) as [c|] eqn:E; [eauto|].
    apply RPCErrorCode_lookup_none in E. now destruct E.
Qed.

(** C10 ([with_code] then [parsed_code]).  For every member [c] of
    [RPCErrorCode], message [m] and optional data [d], the error
    [with_code c m d] has code [c.value], and its [parsed_code] is
    [c]. *)
Theorem with_code_parsed_code (c : RPCErrorCode) (m : string) (d : option (list byte)) :
  code (with_code c m d) = RPCErrorCode_value c
  /\ parsed_code (with_code c m d) = Some c.
Proof.
  split; [reflexivity|]. unfold parsed_code, with_code. cbn [code].
  now rewrite RPCErrorCode_lookup_value.
Qed.

(* ================================================================== *)
(** ** The schema *)
(* ================================================================== *)

Lemma schema_well_formed (R : ty) :
  In R schema -> (ty_depth R < recursion_limit)%nat /\ well_formed R = true.
Proof.
  intros H.
  assert (Hall : forallb (fun R => Nat.ltb (ty_depth R) recursion_limit && well_formed R)
                   schema = true) by (vm_compute; reflexivity).
  rewrite forallb_forall in Hall. specialize (Hall R H).
  apply andb_true_iff in Hall as [Hd Hw]. apply Nat.ltb_lt in Hd. now split.
Qed.

Lemma schema_type_of (R : ty) (v : value) :
  In R schema -> valid R v = true -> type_of v = Some R.
Proof.
  intros H Hv. unfold schema in H. cbn [In] in H.
  repeat (destruct H as [<-|H]); try contradiction;
    (destruct v; try discriminate Hv; cbn [valid] in Hv;
     apply andb_true_iff in Hv as [Hc _]; apply String.eqb_eq in Hc; subst cls;
     reflexivity).
Qed.

(** ** Records on the wire *)

Lemma unstructure_fields_keys (f : ty -> value -> UResult) (fields : list field)
    (attrs : list (string * value)) :
  forall d, unstructure_fields f _to_camel_case fields attrs = Ok d ->
            map fst d = wire_names fields.
Proof.
  induction fields as [|[name t default] r IH]; intros d H; cbn [unstructure_fields] in H.
  - now injection H as <-.
  - destruct (getattr name attrs) as [v|]; [|discriminate].
    destruct (f t v) as [j| |]; try discriminate. cbn in H.
    destruct (unstructure_fields f _to_camel_case r attrs) as [js| |]; try discriminate.
    cbn in H. injection H as <-. cbn. f_equal. now apply IH.
Qed.

Lemma unstructure_fields_entry (f : ty -> value -> UResult) (fields : list field)
    (attrs : list (string * value)) (name : string) (t : ty) (default : option value) :
  In (Field name t default) fields ->
  forall d, unstructure_fields f _to_camel_case fields attrs = Ok d ->
  exists v j, getattr name attrs = Some v /\ f t v = Ok j
              /\ In (_to_camel_case name, j) d.
Proof.
  induction fields as [|[name' t' default'] r IH]; intros Hin d H; [destruct Hin|].
  cbn [unstructure_fields] in H.
  destruct (getattr name' attrs) as [v|] eqn:Eg; [|discriminate].
  destruct (f t' v) as [j| |] eqn:Ef; try discriminate. cbn in H.
  destruct (unstructure_fields f _to_camel_case r attrs) as [js| |]; try discriminate.
  cbn in H. injection H as <-. destruct Hin as [[= -> -> ->]|Hin].
  - exists v, j. repeat split; auto. now left.
  - destruct (IH Hin js eq_refl) as (v' & j' & ? & ? & ?).
    exists v', j'. repeat split; auto. now right.
Qed.





(* ================================================================== *)
(** ** Structuring and unstructuring the schema *)
(* ================================================================== *)

Section Codec.

Variable checksum_case : list byte -> nat -> bool.

(** C1 (round trip).  For every dataclass [R] of the schema and every
    valid instance [v] of [R], unstructuring [v] succeeds and
    structuring the result into [R] gives [v] back. *)
Theorem structure_unstructure_roundtrip (R : ty) (v : value) :
  In R schema -> valid R v = true ->
  exists j, unstructure checksum_case v None = Ok j /\ structure R j = Ok v.
Proof.
  intros HR Hv. destruct (schema_well_formed R HR) as [Hd Hwf].
  unfold unstructure, structure. rewrite (schema_type_of R v HR Hv).
  now apply roundtrip_at.
Qed.

(** *** The typed transaction *)

Lemma structure_int_at (val : JSON) (n : nat) :
  structure_into (S n) TInt val = structure TInt val.
Proof. reflexivity. Qed.

Lemma structure_Type2Transaction (val : JSON) :
  structure Type2Transaction val =
  _IntoTypedTx 2 (structure_into (recursion_limit - 1))
    (IntoDataclassFromMapping (structure_into (recursion_limit - 1)) _to_camel_case "Type2Transaction"
       Type2Transaction_fields) val.
Proof. reflexivity. Qed.

Lemma structure_Type2Transaction_type (d : dict) (type_val : JSON) (n : Z) :
  dict_get "type" d = Some type_val ->
  structure TInt type_val = Ok (VInt n) ->
  structure Type2Transaction (JDict d) =
  if differs_from 2 (VInt n) then
    if formats (VInt n) then Fail (VariantMismatch 2 (VInt n)) else Raise ValueError
  else IntoDataclassFromMapping (structure_into (recursion_limit - 1)) _to_camel_case
         "Type2Transaction" Type2Transaction_fields (JDict d).
Proof.
  intros H Hint. rewrite structure_Type2Transaction.
  cbn [_IntoTypedTx]. unfold dict_contains, dict_get_or_none. rewrite H. cbn [negb].
  change (recursion_limit - 1)%nat with (S 998).
  rewrite (structure_int_at type_val 998), Hint. reflexivity.
Qed.

(** X1 (typed transaction). Structuring into [Type2Transaction] fails
    unless the value is a mapping with a [type] key; the value under
    that key is structured as a hex integer first; when that gives an
    integer other than 2 whose decimal numeral can be written, the
    result is the mismatch error whatever the other entries are, and
    when the numeral cannot be written, it is the [ValueError] of
    writing it; when it gives 2 the result is that of the record handler
    on the mapping. ["type": "0x1"] fails with the mismatch error,
    ["type": "0x2"] with the record's fields succeeds. Unstructuring
    builds the record's mapping first and then assigns ["type": "0x2"]
    into it, so the result has that entry. *)
Theorem typed_transaction_discriminator :
  (forall val, (forall d, val <> JDict d) ->
     structure Type2Transaction val = Fail TxNotMapping)
  /\ (forall d, dict_get "type" d = None ->
        structure Type2Transaction (JDict d) = Fail TxMissingType)
  /\ (forall d type_val n,
        dict_get "type" d = Some type_val ->
        structure TInt type_val = Ok (VInt n) -> n <> 2%Z ->
        Py.int_str_allowed n = true ->
        structure Type2Transaction (JDict d) = Fail (VariantMismatch 2 (VInt n)))
  /\ (forall d type_val n,
        dict_get "type" d = Some type_val ->
        structure TInt type_val = Ok (VInt n) -> n <> 2%Z ->
        Py.int_str_allowed n = false ->
        structure Type2Transaction (JDict d) = Raise ValueError)
  /\ (forall d type_val,
        dict_get "type" d = Some type_val ->
        structure TInt type_val = Ok (VInt 2) ->
        structure Type2Transaction (JDict d) =
        IntoDataclassFromMapping (structure_into (recursion_limit - 1)) _to_camel_case "Type2Transaction"
          Type2Transaction_fields (JDict d))
  /\ (forall d, dict_get "type" d = Some (JStr "0x1") ->
        structure Type2Transaction (JDict d) = Fail (VariantMismatch 2 (VInt 1)))
  /\ structure Type2Transaction
       (JDict [("type", JStr "0x2"); ("chainId", JStr "0x1"); ("value", JStr "0x0");
               ("gas", JStr "0x5208"); ("maxFeePerGas", JStr "0x3b9aca00");
               ("maxPriorityFeePerGas", JStr "0x0"); ("nonce", JStr "0x7")]) =
     Ok (VObject "Type2Transaction"
           [("chain_id", VInt 1); ("value", VAmount 0); ("gas", VInt 21000);
            ("max_fee_per_gas", VAmount 1000000000); ("max_priority_fee_per_gas", VAmount 0);
            ("nonce", VInt 7); ("to", VNone); ("data", VNone)])
  /\ (forall val,
        unstructure checksum_case val (Some Type2Transaction) =
        (tx_dict <- AsDataclassToDict (unstructure_as checksum_case (recursion_limit - 1)) _to_camel_case
                      Type2Transaction_fields val ;;
         match tx_dict with
         | JDict d => Ok (JDict (dict_set "type" (JStr "0x2") d))
         | _ => Raise TypeError
         end))
  /\ (forall val j,
        unstructure checksum_case val (Some Type2Transaction) = Ok j ->
        exists d, j = JDict d /\ dict_get "type" d = Some (JStr "0x2")).
Proof.
  assert (Hun : forall val,
        unstructure checksum_case val (Some Type2Transaction) =
        (tx_dict <- AsDataclassToDict (unstructure_as checksum_case (recursion_limit - 1)) _to_camel_case
                      Type2Transaction_fields val ;;
         match tx_dict with
         | JDict d => Ok (JDict (dict_set "type" (JStr "0x2") d))
         | _ => Raise TypeError
         end)).
  { intros val. unfold unstructure. change recursion_limit with (S 999).
    cbn [unstructure_as Type2Transaction UNSTRUCTURER].
    change (typed_tx_number "Type2Transaction") with (Some 2%Z). cbv iota.
    unfold _AsTypedTx.
    destruct (AsDataclassToDict _ _ _ val) as [[]| |]; reflexivity. }
  pose proof structure_Type2Transaction_type as Hty.
  split; [|split; [|split; [|split; [|split; [|split; [|split; [|split]]]]]]].
  - intros val H. rewrite structure_Type2Transaction.
    destruct val; try reflexivity. now destruct (H entries).
  - intros d H. rewrite structure_Type2Transaction. cbn [_IntoTypedTx].
    unfold dict_contains. now rewrite H.
  - intros d type_val n H Hint Hn Hfmt. rewrite (Hty d type_val n H Hint).
    cbn [differs_from formats]. apply Z.eqb_neq in Hn. now rewrite Hn, Hfmt.
  - intros d type_val n H Hint Hn Hfmt. rewrite (Hty d type_val n H Hint).
    cbn [differs_from formats]. apply Z.eqb_neq in Hn. now rewrite Hn, Hfmt.
  - intros d type_val H Hint. rewrite (Hty d type_val 2%Z H Hint). reflexivity.
  - intros d H. rewrite (Hty d (JStr "0x1") 1%Z H eq_refl). reflexivity.
  - vm_compute. reflexivity.
  - exact Hun.
  - intros val j H. rewrite Hun in H.
    destruct (AsDataclassToDict _ _ _ val) as [[]| |]; try discriminate H.
    cbn in H. injection H as <-. eexists. split; [reflexivity|].
    apply dict_get_set_same.
Qed.

(** *** A type of too many digits *)

Lemma all_hex_all_f (n : nat) : all_hex (all_f n) = true.
Proof. induction n as [|n IH]; [reflexivity|]. cbn [all_f all_hex]. now rewrite IH. Qed.

Lemma hex_number_all_f (n : nat) :
  forall acc, (hex_number acc (all_f n) + 1 = (acc + 1) * 16 ^ N.of_nat n)%N.
Proof.
  induction n as [|n IH]; intros acc.
  - cbn [all_f hex_number]. change (N.of_nat 0) with 0%N. rewrite N.pow_0_r. ring.
  - cbn [all_f hex_number]. change (Py.hex_value "f") with (Some 15%N). cbv iota.
    rewrite IH, Nat2N.inj_succ, N.pow_succ_r'. ring.
Qed.

(** A numeral of hexadecimal digits [f] is read as the integer before
    a power of 16, whatever its length. *)
Lemma structure_all_f (n : nat) :
  structure TInt (JStr (String "0" (String "x" (all_f (S n))))) =
  Ok (VInt (16 ^ Z.of_nat (S n) - 1)).
Proof.
  rewrite <- (structure_int_at _ 0). cbn [structure_into STRUCTURER].
  pose proof (all_hex_all_f (S n)) as Hall.
  pose proof (hex_number_all_f (S n) 0) as H.
  cbn [all_f] in *. rewrite IntoIntFromHex_prefixed, int_base0_hex by exact Hall.
  cbn [bind]. do 2 f_equal.
  apply (f_equal Z.of_N) in H.
  rewrite N2Z.inj_add, N2Z.inj_mul, N2Z.inj_pow, nat_N_Z in H.
  change (Z.of_N 1) with 1%Z in H. change (Z.of_N (0 + 1)) with 1%Z in H.
  change (Z.of_N 16) with 16%Z in H. lia.
Qed.

Lemma pow_10_4300 : (10 ^ 1 <= 10 ^ 4300 < 16 ^ 4000)%Z.
Proof.
  split.
  - apply Z.pow_le_mono_r; lia.
  - change 4300%Z with (43 * 100)%Z. change 4000%Z with (40 * 100)%Z.
    rewrite !Z.pow_mul_r by lia. apply Z.pow_lt_mono_l; [lia|].
    split; [apply Z.pow_nonneg; lia | reflexivity].
Qed.

(** C4, at a [type] the mismatch error cannot name.  [oversized_type]
    is a numeral of 4000 hexadecimal digits: the integer handler reads
    it, the integer is not 2 and has more than 4300 decimal digits,
    and structuring a mapping with it into [Type2Transaction] does not
    fail with the mismatch error: the [ValueError] of writing the
    integer into the message leaves [structure]. *)
Lemma typed_transaction_type_overflow :
  structure TInt (JStr oversized_type) = Ok (VInt (16 ^ 4000 - 1))
  /\ (16 ^ 4000 - 1 <> 2)%Z
  /\ Py.int_str_allowed (16 ^ 4000 - 1) = false
  /\ structure Type2Transaction (JDict [("type", JStr oversized_type)]) = Raise ValueError.
Proof.
  assert (Hs : structure TInt (JStr oversized_type) = Ok (VInt (16 ^ 4000 - 1)))
    by exact (structure_all_f 3999).
  assert (Hne : (16 ^ 4000 - 1 <> 2)%Z).
  { pose proof pow_10_4300 as H. revert H.
    change (10 ^ 1)%Z with 10%Z. generalize (10 ^ 4300)%Z (16 ^ 4000)%Z. lia. }
  assert (Hfmt : Py.int_str_allowed (16 ^ 4000 - 1) = false).
  { unfold Py.int_str_allowed. apply Z.ltb_ge.
    change (Z.of_nat Py.max_str_digits) with 4300%Z.
    pose proof pow_10_4300 as H. revert H.
    change (10 ^ 1)%Z with 10%Z. generalize (10 ^ 4300)%Z (16 ^ 4000)%Z. lia. }
  split; [exact Hs|]. split; [exact Hne|]. split; [exact Hfmt|].
  rewrite (structure_Type2Transaction_type [("type", JStr oversized_type)]
             (JStr oversized_type) (16 ^ 4000 - 1) eq_refl Hs).
  cbn [differs_from formats]. apply Z.eqb_neq in Hne. rewrite Hne, Hfmt. reflexivity.
Qed.

(** *** The error code *)

Lemma attrs_match_field (check : ty -> value -> bool) (fields : list field) :
  forall attrs name t default,
    attrs_match check fields attrs = true ->
    distinct (map field_name fields) = true ->
    In (Field name t default) fields ->
    exists a, getattr name attrs = Some a /\ check t a = true.
Proof.
  induction fields as [|[n ft d] fr IH]; intros [|[k a] ar] name t default Hm Hd Hin;
    cbn [attrs_match] in Hm; try discriminate; [destruct Hin|].
  apply andb_true_iff in Hm as [Hm Hr]. apply andb_true_iff in Hm as [Hn Hc].
  apply String.eqb_eq in Hn. subst k.
  cbn [map field_name] in Hd. apply distinct_cons in Hd as [Hnot Hd].
  cbn [getattr]. destruct Hin as [[= -> -> ->]|Hin].
  - rewrite String.eqb_refl. eauto.
  - destruct (String.eqb n name) eqn:E.
    + apply String.eqb_eq in E. subst n. exfalso. apply Hnot.
      exact (in_map field_name _ _ Hin).
    + eapply IH; eauto.
Qed.

(** An integer or a quantity, at a type without [ErrorCode], is
    written as [hex] of it. *)
Lemma unstructure_integer_hex (n : nat) :
  forall t v z j,
    integer_of v = Some z -> valid t v = true -> ints_as_hex t = true ->
    unstructure_as checksum_case n t v = Ok j ->
    (0 <= z)%Z /\ j = JStr (Py.hex z).
Proof.
  induction n as [|n IH]; intros t v z j Hz Hv Hh Hu; [discriminate|].
  cbn [unstructure_as] in Hu.
  destruct t as [| | | | | | |k| |elem|variants|cls fields];
    try discriminate Hh;
    try (destruct v; try discriminate Hz; discriminate Hv).
  - destruct v; try discriminate Hv. cbn in Hv, Hu, Hz.
    injection Hz as <-. injection Hu as <-. apply Z.leb_le in Hv. now split.
  - destruct v; try discriminate Hv. cbn in Hv, Hu, Hz.
    injection Hz as <-. injection Hu as <-. apply Z.leb_le in Hv. now split.
  - apply valid_union in Hv as (t & Hf & Hv).
    cbn [UNSTRUCTURER] in Hu. unfold AsUnion in Hu. rewrite Hf in Hu.
    cbn [ints_as_hex] in Hh. rewrite forallb_forall in Hh.
    apply find_some in Hf as [Hin _]. eapply IH; eauto.
Qed.

Lemma unstructure_record (n : nat) (cls : string) (fields : list field) (val : value)
    (j : JSON) :
  unstructure_as checksum_case (S n) (TDataclass cls fields) val = Ok j ->
  exists c attrs d0,
    val = VObject c attrs
    /\ unstructure_fields (unstructure_as checksum_case n) _to_camel_case fields attrs = Ok d0
    /\ j = JDict (match typed_tx_number cls with
                  | Some type_num => dict_set "type" (JStr (Py.hex type_num)) d0
                  | None => d0
                  end).
Proof.
  cbn [unstructure_as UNSTRUCTURER]. unfold _AsTypedTx, AsDataclassToDict. intros H.
  destruct val; try (destruct (typed_tx_number cls); discriminate H).
  destruct (unstructure_fields _ _ _ _) as [d0| |] eqn:E;
    try (destruct (typed_tx_number cls); discriminate H).
  exists cls0, attrs, d0. split; [reflexivity|]. split; [exact E|].
  destruct (typed_tx_number cls); cbn in H; now injection H as <-.
Qed.

Lemma schema_dataclass (R : ty) :
  In R schema -> exists cls fields, R = TDataclass cls fields.
Proof.
  unfold schema. cbn [In]. intros H.
  repeat (destruct H as [<-|H]); try contradiction; do 2 eexists; reflexivity.
Qed.

(** [ErrorCode] is declared for the code of [RPCError] and for nothing
    else, also not inside a union. *)
Lemma schema_ints_as_hex (R : ty) (name : string) (t : ty) (default : option value) :
  In R schema -> In (Field name t default) (fields_of R) ->
  ~ (R = RPCError_t /\ name = "code") -> ints_as_hex t = true.
Proof.
  intros HR Hf Hne. unfold schema in HR. cbn [In] in HR.
  repeat (destruct HR as [<-|HR]); try contradiction;
    cbn [fields_of TxInfo LogEntry TxReceipt BlockInfo RPCError_t Type2Transaction
         EthCallParams EstimateGasParams FilterParams FilterParamsEIP234 In] in Hf;
    repeat (destruct Hf as [[= <- <- <-]|Hf]; [try reflexivity|]);
    try contradiction.
  exfalso. apply Hne. now split.
Qed.

Lemma integer_field_on_the_wire (R : ty) (v a : value) (name : string) (t : ty)
    (default : option value) (z : Z) :
  In R schema -> valid R v = true ->
  In (Field name t default) (fields_of R) ->
  ~ (R = RPCError_t /\ name = "code") ->
  attribute name v = Some a -> integer_of a = Some z ->
  exists d,
    unstructure checksum_case v None = Ok (JDict d)
    /\ dict_get (_to_camel_case name) d =
       Some (JStr (String "0" (String "x" (Py.hex_digits (Z.to_N z))))).
Proof.
  intros HR Hv Hf Hne Ha Hz.
  pose proof (schema_ints_as_hex R name t default HR Hf Hne) as Hh.
  destruct (schema_well_formed R HR) as [Hd Hwf].
  destruct (roundtrip_at checksum_case recursion_limit R v Hd Hwf Hv) as (j & Hu & _).
  unfold unstructure. rewrite (schema_type_of R v HR Hv).
  destruct (schema_dataclass R HR) as (cls & fields & ->). cbn [fields_of] in Hf.
  change recursion_limit with (S 999) in Hu |- *.
  destruct (unstructure_record 999 cls fields v j Hu) as (c & attrs & d0 & -> & Hfs & ->).
  rewrite Hu. eexists. split; [reflexivity|].
  cbn [well_formed] in Hwf.
  apply andb_true_iff in Hwf as [Hwf Htype].
  apply andb_true_iff in Hwf as [Hwf Hwire].
  apply andb_true_iff in Hwf as [_ Hnames].
  cbn [valid] in Hv. apply andb_true_iff in Hv as [_ Hm].
  destruct (attrs_match_field valid fields attrs name t default Hm Hnames Hf)
    as (a' & Ha' & Hva).
  cbn [attribute] in Ha. rewrite Ha in Ha'. injection Ha' as <-.
  destruct (unstructure_fields_entry _ _ _ _ _ _ Hf d0 Hfs) as (v' & j' & Hg & Hj & Hin).
  rewrite Ha in Hg. injection Hg as <-.
  destruct (unstructure_integer_hex 999 t a z j' Hz Hva Hh Hj) as [Hpos ->].
  rewrite hex_nonneg in Hin by exact Hpos.
  assert (Hget : dict_get (_to_camel_case name) d0 =
                 Some (JStr (String "0" (String "x" (Py.hex_digits (Z.to_N z)))))).
  { apply dict_get_In; [|exact Hin].
    now rewrite (unstructure_fields_keys _ _ _ _ Hfs). }
  destruct (typed_tx_number cls) eqn:Etx; [|exact Hget].
  rewrite dict_get_set_other; [exact Hget|].
  intros Heq. apply negb_true_iff in Htype.
  assert (Hw : In "type" (wire_names fields)).
  { rewrite <- Heq.
    exact (in_map (fun f => _to_camel_case (field_name f)) _ _ Hf). }
  apply existsb_eqb_In in Hw. congruence.
Qed.

(** C6 (the error code is a plain integer).  An [RPCError]
    unstructures to a mapping with its code as a plain integer under
    [code], whatever the integer, never as text, and with its data,
    when there is some, under [data] as ["0x"] and the hexadecimal
    numeral of the bytes.  Every other integer of a valid instance of
    any record of the schema, be its field declared [int], a quantity,
    or a union with one of them ([None | int], [None | int |
    BlockLabel]), is found under the wire name of the field as ["0x"]
    and its hexadecimal digits: the entry, where the mapping has one,
    is that text, and the mapping has one whenever the value is not the
    default of the field.  Structuring takes the plain integer back
    into the code, with or without data, and does not take a
    hexadecimal string for it. *)
Theorem error_code_is_plain :
  (forall e,
     exists d,
       unstructure checksum_case (RPCError_value e) None = Ok (JDict d)
       /\ dict_get "code" d = Some (JInt (code e))
       /\ dict_get "message" d = Some (JStr (message e))
       /\ (forall bs, data e = Some bs ->
             dict_get "data" d = Some (JStr (String "0" (String "x" (Py.bytes_hex bs))))))
  /\ (forall R v a name t default n,
        In R schema -> valid R v = true ->
        In (Field name t default) (fields_of R) ->
        ~ (R = RPCError_t /\ name = "code") ->
        attribute name v = Some a -> integer_of a = Some n ->
        exists d,
          unstructure checksum_case v None = Ok (JDict d)
          /\ (forall j, dict_get (_to_camel_case name) d = Some j ->
                j = JStr (String "0" (String "x" (Py.hex_digits (Z.to_N n)))))
          /\ (default <> Some a ->
              dict_get (_to_camel_case name) d =
              Some (JStr (String "0" (String "x" (Py.hex_digits (Z.to_N n)))))))
  /\ (forall e j,
        unstructure checksum_case (RPCError_value e) None = Ok j ->
        structure RPCError_t j = Ok (RPCError_value e))
  /\ (forall c m,
        structure RPCError_t (JDict [("code", JInt c); ("message", JStr m)]) =
        Ok (RPCError_value (mkRPCError c m None)))
  /\ (forall c m bs,
        structure RPCError_t
          (JDict [("code", JInt c); ("message", JStr m);
                  ("data", JStr (String "0" (String "x" (Py.bytes_hex bs))))]) =
        Ok (RPCError_value (mkRPCError c m (Some bs))))
  /\ (forall c m,
        is_ok (structure RPCError_t
                 (JDict [("code", JStr (Py.hex c)); ("message", JStr m)])) = false).
Proof.
  assert (H1 : forall e,
     unstructure checksum_case (RPCError_value e) None =
     Ok (JDict [("code", JInt (code e));
                ("message", JStr (message e));
                ("data", match data e with
                         | Some bs => JStr (String "0" (String "x" (Py.bytes_hex bs)))
                         | None => JNull
                         end)])).
  { intros [c m [bs|]]; reflexivity. }
  assert (H5 : forall c m bs,
        structure RPCError_t
          (JDict [("code", JInt c); ("message", JStr m);
                  ("data", JStr (String "0" (String "x" (Py.bytes_hex bs))))]) =
        Ok (RPCError_value (mkRPCError c m (Some bs)))).
  { intros c m bs. unfold RPCError_value; cbn [code message data].
    unfold structure. change recursion_limit with (S (S (S 997))).
    cbn [structure_into RPCError_t STRUCTURER].
    change (typed_tx_number "RPCError") with (@None Z). cbv iota.
    unfold IntoDataclassFromMapping, required, defaulted, Optional.
    cbn [structure_fields].
    change (dict_get (_to_camel_case "code") _) with (Some (JInt c)).
    change (dict_get (_to_camel_case "message") _) with (Some (JStr m)).
    change (dict_get (_to_camel_case "data") _)
      with (Some (JStr (String "0" (String "x" (Py.bytes_hex bs))))).
    cbn [structure_into STRUCTURER IntoInt IntoStr IntoUnion IntoNone wrap bind].
    rewrite IntoBytesFromHex_hex. reflexivity. }
  split; [|split; [|split; [|split; [|split]]]].
  - intros e. eexists. split; [apply H1|]. split; [reflexivity|]. split; [reflexivity|].
    intros bs ->. reflexivity.
  - intros R v a name t default n HR Hv Hf Hne Ha Hn.
    destruct (integer_field_on_the_wire R v a name t default n HR Hv Hf Hne Ha Hn)
      as (d & Hu & Hget).
    exists d. split; [exact Hu|]. split.
    + intros j Hj. rewrite Hget in Hj. now injection Hj as <-.
    + intros _. exact Hget.
  - intros e j H. rewrite H1 in H. injection H as <-.
    destruct e as [c m [bs|]]; [apply H5 | reflexivity].
  - intros c m. reflexivity.
  - exact H5.
  - intros c m. reflexivity.
Qed.


(** *** Nesting *)

Lemma json_depth_nest (n : nat) : json_depth (nest n) = S n.
Proof.
  induction n as [|n IH]; [reflexivity|].
  cbn [nest json_depth map]. rewrite IH. unfold list_max. cbn [fold_right]. lia.
Qed.





Lemma repr_raises_deep (stack : nat) :
  forall n, (stack <= n)%nat -> repr_raises stack (nest n) = Some RecursionError.
Proof.
  induction stack as [|stack IH]; intros n Hn.
  - destruct n; reflexivity.
  - destruct n as [|n]; [lia|]. cbn [nest repr_raises map first_raised fold_right].
    rewrite IH by lia. reflexivity.
Qed.

(** A list nested at least as deep as the recursion limit, given where
    a block label is declared, uses up the call stack. *)
Lemma structure_label_deep (n : nat) :
  (recursion_limit <= n)%nat -> structure TBlockLabel (nest n) = Raise RecursionError.
Proof.
  intros Hn. unfold structure. change recursion_limit with (S 999) in *.
  cbn [structure_into STRUCTURER]. unfold _IntoBlockLabel.
  assert (Hl : BlockLabel_lookup (nest n) = None) by (destruct n; reflexivity).
  rewrite Hl, repr_raises_deep by lia. reflexivity.
Qed.

(** C9, as the claim states it, fails, in both of its parts.  No bound
    [D] keeps structuring from using up the call stack on the inputs
    nested deeper than [D]: given where a block label is declared, a
    list nested deep enough reaches the look-up of the label, whose
    error message is to hold the text of the list, and writing that
    text is what uses up the stack; so it is with a list nested 1500
    deep.  And where structuring fails on a nested input, as it does
    where an integer is declared, it fails at every depth with the
    error it has for any value that is no [0x] string: there is no
    error for depth. *)
Lemma too_deep_counterexample :
  (~ exists D : nat,
       forall val, (D < json_depth val)%nat ->
                   structure TBlockLabel val <> Raise RecursionError)
  /\ structure TBlockLabel (nest 1500) = Raise RecursionError
  /\ (forall n, structure TInt (nest n) = Fail NotHexInteger)
  /\ structure TInt JNull = Fail NotHexInteger.
Proof.
  split; [|split; [|split]].
  - intros [D H]. apply (H (nest (D + recursion_limit))).
    + rewrite json_depth_nest. lia.
    + apply structure_label_deep. lia.
  - apply structure_label_deep. unfold recursion_limit. lia.
  - intros n. destruct n; reflexivity.
  - reflexivity.
Qed.

(** C9, amended.  Structuring has no bound on depth and no error of
    its own for it.  Where the declared type is an integer, a
    quantity, bytes or fixed-length data, a value that is not a [0x]
    string, a list nested to any depth included, is turned away by
    the handler with the codec's ordinary error, without being looked
    into. *)
Theorem structuring_has_no_depth_bound :
  (forall val, prefixed val = false ->
     structure TInt val = Fail NotHexInteger
     /\ structure TAmount val = Fail NotHexInteger
     /\ structure TBytes val = Fail NotHexData
     /\ forall k, structure (TData k) val = Fail NotHexData)
  /\ (forall n, json_depth (nest n) = S n /\ prefixed (nest n) = false)
  /\ (forall n,
        structure TInt (nest n) = Fail NotHexInteger
        /\ structure TAmount (nest n) = Fail NotHexInteger
        /\ structure TBytes (nest n) = Fail NotHexData
        /\ forall k, structure (TData k) (nest n) = Fail NotHexData).
Proof.
  assert (H : forall val, prefixed val = false ->
     structure TInt val = Fail NotHexInteger
     /\ structure TAmount val = Fail NotHexInteger
     /\ structure TBytes val = Fail NotHexData
     /\ forall k, structure (TData k) val = Fail NotHexData).
  { intros val H. unfold structure. change recursion_limit with (S 999).
    cbn [structure_into STRUCTURER]. unfold _IntoTypedQuantity, _IntoTypedData.
    rewrite (prefixed_false_int val H), (prefixed_false_bytes val H).
    repeat split. }
  assert (Hp : forall n, prefixed (nest n) = false) by (intros n; destruct n; reflexivity).
  split; [exact H|]. split.
  - intros n. split; [apply json_depth_nest | apply Hp].
  - intros n. apply H, Hp.
Qed.


End Codec.

(* ================================================================== *)
(** ** Further properties of the handlers *)
(* ================================================================== *)

(** *** Block labels *)

Lemma BlockLabel_lookup_iff (val : JSON) (l : BlockLabel) :
  BlockLabel_lookup val = Some l <-> val = JStr (BlockLabel_value l).
Proof.
  split.
  - destruct val; cbn [BlockLabel_lookup]; try discriminate.
    intros H. apply find_some in H as [_ H]. apply String.eqb_eq in H. now subst.
  - intros ->. destruct l; reflexivity.
Qed.

Lemma first_raised_cases (P : exn -> Prop) (steps : list (option exn)) :
  (forall x, In (Some x) steps -> P x) ->
  forall x, first_raised steps = Some x -> P x.
Proof.
  induction steps as [|[y|] r IH]; intros H x; cbn [first_raised fold_right].
  - discriminate.
  - intros [= <-]. apply H. now left.
  - apply IH. intros z Hz. apply H. now right.
Qed.

(** Writing the text of a value raises nothing but [ValueError] and
    [RecursionError]. *)
Lemma repr_raises_cases (stack : nat) :
  forall val x, repr_raises stack val = Some x -> x = ValueError \/ x = RecursionError.
Proof.
  induction stack as [|stack IH]; intros val x;
    destruct val as [|b|z|m e|s|items|entries]; cbn [repr_raises]; try discriminate;
    try (destruct (Py.int_str_allowed z); [discriminate | intros [= <-]; now left]);
    try (intros [= <-]; now right).
  - apply (first_raised_cases (fun x => x = ValueError \/ x = RecursionError)).
    intros y Hy. apply in_map_iff in Hy as (v & Hv & _). eapply IH, Hv.
  - apply (first_raised_cases (fun x => x = ValueError \/ x = RecursionError)).
    intros y Hy. apply in_map_iff in Hy as ([k v] & Hv & _). eapply IH, Hv.
Qed.

Lemma repr_raises_nest (stack : nat) : repr_raises stack (nest stack) = Some RecursionError.
Proof. induction stack as [|stack IH]; [reflexivity|]. cbn. now rewrite IH. Qed.

(** X2 (block labels). [_IntoBlockLabel] yields a label exactly on the
    string that is the label's value, and nothing but a label. On a
    value that is no label it fails with the codec's error, or, when the
    value is a list or a mapping, may let the [RecursionError] of
    writing the value into the message of the error through; it raises
    nothing else, and nothing at all on a value that is not a list or a
    mapping. Whatever room the call stack has, there is a list nested
    deep enough to use it up. What [_AsBlockLabel] writes for a label is
    read back as that label. *)
Theorem block_label_structuring (stack : nat) (val : JSON) :
  (forall l, _IntoBlockLabel stack val = Ok (VLabel l) <-> val = JStr (BlockLabel_value l))
  /\ (forall v, _IntoBlockLabel stack val = Ok v -> exists l, v = VLabel l)
  /\ (forall e, _IntoBlockLabel stack val = Fail e -> e = MalformedLabel)
  /\ (forall x, _IntoBlockLabel stack val = Raise x ->
        x = RecursionError /\ json_depth val <> O)
  /\ (exists n, _IntoBlockLabel stack (nest n) = Raise RecursionError)
  /\ (forall l, exists j,
        _AsBlockLabel (VLabel l) = Ok j /\ _IntoBlockLabel stack j = Ok (VLabel l)).
Proof.
  split; [|split; [|split; [|split; [|split]]]].
  - intros l. rewrite <- BlockLabel_lookup_iff. unfold _IntoBlockLabel.
    destruct (BlockLabel_lookup val) as [l'|].
    + split; intros H; injection H as <-; reflexivity.
    + split; [|discriminate]. destruct (repr_raises stack val) as [[]|]; discriminate.
  - intros v. unfold _IntoBlockLabel. destruct (BlockLabel_lookup val) as [l|].
    + intros [= <-]. eauto.
    + destruct (repr_raises stack val) as [[]|]; discriminate.
  - intros e. unfold _IntoBlockLabel. destruct (BlockLabel_lookup val) as [l|];
      [discriminate|].
    destruct (repr_raises stack val) as [[]|]; try discriminate; now intros [= <-].
  - intros x. unfold _IntoBlockLabel. destruct (BlockLabel_lookup val) as [l|];
      [discriminate|].
    destruct (repr_raises stack val) as [y|] eqn:E; [|discriminate].
    destruct (repr_raises_cases stack val y E) as [-> | ->]; [discriminate|].
    intros [= <-]. split; [reflexivity|].
    destruct val as [|b|z|m e|s|items|entries]; cbn [repr_raises] in E;
      try discriminate E; try (cbn; discriminate).
    destruct (Py.int_str_allowed z); discriminate E.
  - exists stack. unfold _IntoBlockLabel.
    assert (Hl : BlockLabel_lookup (nest stack) = None) by (destruct stack; reflexivity).
    now rewrite Hl, repr_raises_nest.
  - intros l. exists (JStr (BlockLabel_value l)). split; [reflexivity|].
    unfold _IntoBlockLabel. now rewrite (proj2 (BlockLabel_lookup_iff _ l) eq_refl).
Qed.

(** *** Integers *)

Lemma int_base0_prefixed_nonneg (body : string) (n : Z) :
  Py.int_base0 (String "0" (String "x" body)) = Some n -> (0 <= n)%Z.
Proof.
  unfold Py.int_base0. cbn [Py.lstrip]. change (Py.int_isspace "0") with false.
  cbv iota. destruct (Py.int_unsigned _) as [m|]; cbn; [|discriminate].
  intros [= <-]. lia.
Qed.

Lemma IntoIntFromHex_nonneg (val : JSON) (n : Z) :
  _IntoIntFromHex val = Ok n -> (0 <= n)%Z.
Proof.
  intros H.
  assert (Hp : prefixed val = true).
  { destruct (prefixed val) eqn:E; [reflexivity|].
    rewrite (prefixed_false_int _ E) in H. discriminate. }
  destruct (prefixed_inv _ Hp) as [body ->].
  rewrite IntoIntFromHex_prefixed in H.
  destruct (Py.int_base0 _) as [m|] eqn:E; [|discriminate].
  injection H as <-. eapply int_base0_prefixed_nonneg, E.
Qed.

Lemma IntoIntFromHex_raises (val : JSON) (x : exn) :
  _IntoIntFromHex val = Raise x -> x = ValueError.
Proof.
  unfold _IntoIntFromHex. destruct val; try discriminate.
  destruct (negb _); [discriminate|].
  destruct (Py.int_base0 s); [discriminate|]. now intros [= <-].
Qed.

(** X3 (integers read). Whatever [_IntoIntFromHex] structures is non-
    negative: the [0x] prefix it insists on leaves no room for a sign.
    So the quantity constructor [_IntoTypedQuantity] calls never sees a
    negative number, and what that handler yields is a non-negative
    amount. *)
Theorem structured_int_nonnegative (val : JSON) :
  (forall n, _IntoIntFromHex val = Ok n -> (0 <= n)%Z)
  /\ _IntoTypedQuantity val <> Raise NegativeValue
  /\ (forall v, _IntoTypedQuantity val = Ok v ->
        exists n, v = VAmount n /\ (0 <= n)%Z /\ _IntoIntFromHex val = Ok n).
Proof.
  split; [|split].
  - intros n. apply IntoIntFromHex_nonneg.
  - unfold _IntoTypedQuantity.
    destruct (_IntoIntFromHex val) as [n| |x] eqn:E; cbn.
    + apply IntoIntFromHex_nonneg in E. unfold Amount_new.
      destruct (n <? 0)%Z eqn:El; [apply Z.ltb_lt in El; lia | discriminate].
    + discriminate.
    + apply IntoIntFromHex_raises in E. subst x. discriminate.
  - intros v H. unfold _IntoTypedQuantity in H.
    destruct (_IntoIntFromHex val) as [n| |x] eqn:E; cbn in H; try discriminate H.
    pose proof (IntoIntFromHex_nonneg _ _ E) as Hn. unfold Amount_new in H.
    destruct (n <? 0)%Z; [discriminate H|]. injection H as <-. eauto.
Qed.


(** *** The text of an integer *)

Lemma hexdigit_not_upper (d : N) : (d < 16)%N -> Py.is_upper (Py.hexdigit d) = false.
Proof.
  intros Hd. apply negb_true_iff.
  apply (below_16_all (fun d => negb (Py.is_upper (Py.hexdigit d))));
    [vm_compute; reflexivity | exact Hd].
Qed.

Lemma hexdigit_not_zero (d : N) :
  (0 < d)%N -> (d < 16)%N -> Ascii.eqb "0" (Py.hexdigit d) = false.
Proof.
  intros H0 Hd.
  pose proof (below_16_all
    (fun d => N.eqb d 0 || negb (Ascii.eqb "0" (Py.hexdigit d)))
    ltac:(vm_compute; reflexivity) d Hd) as H.
  apply orb_true_iff in H as [H|H].
  - apply N.eqb_eq in H. lia.
  - now apply negb_true_iff.
Qed.

Lemma hex_digits_fuel_no_upper (fuel : nat) :
  forall n acc, no_upper acc = true -> no_upper (Py.hex_digits_fuel fuel n acc) = true.
Proof.
  induction fuel as [|f IH]; intros n acc Hacc; [exact Hacc|].
  cbn [Py.hex_digits_fuel].
  assert (Hd : no_upper (String (Py.hexdigit (n mod 16)) acc) = true).
  { cbn [no_upper]. rewrite hexdigit_not_upper by (apply N.mod_lt; discriminate).
    exact Hacc. }
  destruct (n <? 16)%N; [exact Hd | apply IH, Hd].
Qed.

Lemma hex_digits_fuel_leading (fuel : nat) :
  forall n acc,
    (n < 16 ^ N.of_nat fuel)%N -> (0 < n)%N ->
    Py.startswith "0" (Py.hex_digits_fuel fuel n acc) = false.
Proof.
  induction fuel as [|f IH]; intros n acc Hn H0.
  - cbn in Hn. lia.
  - cbn [Py.hex_digits_fuel]. destruct (n <? 16)%N eqn:E.
    + apply N.ltb_lt in E. cbn [Py.startswith].
      rewrite N.mod_small by exact E. now rewrite hexdigit_not_zero.
    + apply N.ltb_ge in E. apply IH.
      * rewrite Nat2N.inj_succ, N.pow_succ_r' in Hn.
        apply N.Div0.div_lt_upper_bound. exact Hn.
      * apply N.div_str_pos. lia.
Qed.

Lemma hex_digits_minimal (n : N) : minimal_numeral (Py.hex_digits n) = true.
Proof.
  unfold minimal_numeral. destruct n as [|p]; [reflexivity|].
  unfold Py.hex_digits.
  rewrite hex_digits_fuel_leading; [apply orb_true_r | apply hex_fuel_enough | lia].
Qed.

Lemma hex_digits_no_upper (n : N) : no_upper (Py.hex_digits n) = true.
Proof. apply hex_digits_fuel_no_upper. reflexivity. Qed.

Lemma hex_digits_inj (a b : N) : Py.hex_digits a = Py.hex_digits b -> a = b.
Proof.
  intros H. rewrite <- (hex_number_hex_digits a), <- (hex_number_hex_digits b).
  now rewrite H.
Qed.

Lemma hex_inj (n m : Z) : Py.hex n = Py.hex m -> n = m.
Proof.
  unfold Py.hex.
  destruct (n <? 0)%Z eqn:En; destruct (m <? 0)%Z eqn:Em;
    cbn [String.append]; intros H; try discriminate H.
  - injection H as H. apply hex_digits_inj in H.
    apply Z.ltb_lt in En, Em. lia.
  - injection H as H. apply hex_digits_inj in H.
    apply Z.ltb_ge in En, Em. lia.
Qed.

(** X4 (integers written). The text [_AsIntToHex] and [_AsTypedQuantity]
    write for a non-negative integer is [0x] and a numeral of lower-case
    hexadecimal digits that has no leading zero unless it is ["0"]; and
    two integers, of any sign, are never written as the same text. *)
Theorem int_text_canonical :
  (forall n, (0 <= n)%Z ->
     exists digits,
       _AsIntToHex (VInt n) = Ok (JStr (String "0" (String "x" digits)))
       /\ _AsTypedQuantity (VAmount n) = Ok (JStr (String "0" (String "x" digits)))
       /\ hex_integer_form (JStr (String "0" (String "x" digits))) = true
       /\ no_upper digits = true
       /\ minimal_numeral digits = true)
  /\ (forall n m, _AsIntToHex (VInt n) = _AsIntToHex (VInt m) -> n = m)
  /\ (forall n m, _AsTypedQuantity (VAmount n) = _AsTypedQuantity (VAmount m) -> n = m).
Proof.
  split; [|split].
  - intros n Hn. exists (Py.hex_digits (Z.to_N n)).
    cbn [_AsIntToHex _AsTypedQuantity]. rewrite hex_nonneg by exact Hn.
    repeat split; [| apply hex_digits_no_upper | apply hex_digits_minimal].
    cbn [hex_integer_form Py.startswith Py.drop].
    change (Ascii.eqb "0" "0") with true. change (Ascii.eqb "x" "x") with true.
    cbn [andb]. rewrite hex_digits_all_hex, andb_true_r.
    destruct (hex_digits_nonempty (Z.to_N n)) as (c & r & ->). reflexivity.
  - intros n m H. cbn [_AsIntToHex] in H. injection H as H. now apply hex_inj.
  - intros n m H. cbn [_AsTypedQuantity] in H. injection H as H. now apply hex_inj.
Qed.

(** *** The text of bytes *)

Lemma bytes_hex_cons (b : byte) (r : list byte) :
  Py.bytes_hex (b :: r) =
  String (Py.hexdigit (Byte.to_N b / 16))
    (String (Py.hexdigit (Byte.to_N b mod 16)) (Py.bytes_hex r)).
Proof. reflexivity. Qed.

Lemma bytes_hex_length (bs : list byte) :
  String.length (Py.bytes_hex bs) = (2 * List.length bs)%nat.
Proof.
  induction bs as [|b r IH]; [reflexivity|].
  rewrite bytes_hex_cons. cbn [String.length List.length]. rewrite IH. lia.
Qed.

Lemma bytes_hex_all_hex (bs : list byte) : all_hex (Py.bytes_hex bs) = true.
Proof.
  induction bs as [|b r IH]; [reflexivity|].
  destruct (byte_nibbles b) as (Hhi & Hlo & _).
  rewrite bytes_hex_cons. cbn [all_hex]. unfold is_hex_digit.
  now rewrite !hex_value_hexdigit, IH.
Qed.

Lemma bytes_hex_no_upper (bs : list byte) : no_upper (Py.bytes_hex bs) = true.
Proof.
  induction bs as [|b r IH]; [reflexivity|].
  destruct (byte_nibbles b) as (Hhi & Hlo & _).
  rewrite bytes_hex_cons. cbn [no_upper].
  now rewrite !hexdigit_not_upper, IH.
Qed.

Lemma all_hex_no_space (s : string) : all_hex s = true -> no_space s = true.
Proof.
  induction s as [|c r IH]; [reflexivity|]. cbn [all_hex no_space].
  intros H. apply andb_true_iff in H as [Hc Hr]. unfold is_hex_digit in Hc.
  destruct (Py.hex_value c) as [d|] eqn:E; [|discriminate].
  destruct (hex_value_not_space _ _ E) as [_ ->]. now rewrite IH.
Qed.

Lemma bytes_hex_inj (a b : list byte) : Py.bytes_hex a = Py.bytes_hex b -> a = b.
Proof.
  intros H. pose proof (fromhex_bytes_hex a) as Ha.
  rewrite H, fromhex_bytes_hex in Ha. now injection Ha.
Qed.

(** X5 (bytes written). The text [_AsBytesToHex] and [_AsTypedData]
    write for a byte sequence is [0x] and two lower-case hexadecimal
    digits per byte, nothing else; and two byte sequences are never
    written as the same text. *)
Theorem bytes_text_canonical :
  (forall bs k,
     exists body,
       _AsBytesToHex (VBytes bs) = Ok (JStr (String "0" (String "x" body)))
       /\ _AsTypedData (VData k bs) = Ok (JStr (String "0" (String "x" body)))
       /\ String.length body = (2 * List.length bs)%nat
       /\ all_hex body = true
       /\ no_upper body = true
       /\ hex_bytes_form (JStr (String "0" (String "x" body))) = true)
  /\ (forall a b, _AsBytesToHex (VBytes a) = _AsBytesToHex (VBytes b) -> a = b)
  /\ (forall k a b, _AsTypedData (VData k a) = _AsTypedData (VData k b) -> a = b).
Proof.
  split; [|split].
  - intros bs k. exists (Py.bytes_hex bs).
    repeat split;
      [apply bytes_hex_length | apply bytes_hex_all_hex | apply bytes_hex_no_upper |].
    cbn [hex_bytes_form Py.startswith Py.drop].
    change (Ascii.eqb "0" "0") with true. change (Ascii.eqb "x" "x") with true.
    cbn [andb]. rewrite bytes_hex_all_hex, bytes_hex_length. cbn [andb].
    rewrite Nat.even_mul. reflexivity.
  - intros a b H. cbn [_AsBytesToHex] in H. injection H as H. now apply bytes_hex_inj.
  - intros k a b H. cbn [_AsTypedData] in H. injection H as H. now apply bytes_hex_inj.
Qed.


(** *** Letter case on input *)

Lemma digit_value_to_lower (c : ascii) : Py.digit_value (Py.to_lower c) = Py.digit_value c.
Proof.
  apply same_digit_eq.
  apply (ascii_all (fun c => same_digit (Py.digit_value (Py.to_lower c)) (Py.digit_value c))).
  vm_compute. reflexivity.
Qed.

Lemma hex_value_to_lower (c : ascii) : Py.hex_value (Py.to_lower c) = Py.hex_value c.
Proof. unfold Py.hex_value. now rewrite digit_value_to_lower. Qed.

Lemma ascii_isspace_to_lower (c : ascii) :
  Py.ascii_isspace (Py.to_lower c) = Py.ascii_isspace c.
Proof.
  apply eqb_prop.
  apply (ascii_all (fun c => Bool.eqb (Py.ascii_isspace (Py.to_lower c)) (Py.ascii_isspace c))).
  vm_compute. reflexivity.
Qed.

Lemma int_isspace_to_lower (c : ascii) :
  Py.int_isspace (Py.to_lower c) = Py.int_isspace c.
Proof.
  apply eqb_prop.
  apply (ascii_all (fun c => Bool.eqb (Py.int_isspace (Py.to_lower c)) (Py.int_isspace c))).
  vm_compute. reflexivity.
Qed.

Lemma underscore_to_lower (c : ascii) :
  Ascii.eqb (Py.to_lower c) "_" = Ascii.eqb c "_".
Proof.
  apply eqb_prop.
  apply (ascii_all (fun c => Bool.eqb (Ascii.eqb (Py.to_lower c) "_") (Ascii.eqb c "_"))).
  vm_compute. reflexivity.
Qed.

Lemma fromhex_lower_bounded (n : nat) :
  forall s, (String.length s <= n)%nat -> Py.fromhex (Py.lower s) = Py.fromhex s.
Proof.
  induction n as [|n IH]; intros s Hs.
  - destruct s; [reflexivity | cbn in Hs; lia].
  - destruct s as [|c r]; [reflexivity|]. cbn [String.length] in Hs.
    cbn [Py.lower Py.fromhex]. rewrite ascii_isspace_to_lower, hex_value_to_lower.
    rewrite (IH r) by lia.
    destruct (Py.ascii_isspace c); [reflexivity|].
    destruct (Py.hex_value c) as [hi|]; [|reflexivity].
    destruct r as [|d r']; [reflexivity|]. cbn [String.length] in Hs.
    cbn [Py.lower]. rewrite hex_value_to_lower, (IH r') by lia. reflexivity.
Qed.

Lemma fromhex_lower (s : string) : Py.fromhex (Py.lower s) = Py.fromhex s.
Proof. apply (fromhex_lower_bounded (String.length s)). lia. Qed.

Lemma lstrip_lower (s : string) : Py.lstrip (Py.lower s) = Py.lower (Py.lstrip s).
Proof.
  induction s as [|c r IH]; [reflexivity|]. cbn [Py.lower Py.lstrip].
  rewrite int_isspace_to_lower. destruct (Py.int_isspace c); [exact IH | reflexivity].
Qed.

(** The result of the digit scan with its unread rest lower-cased. *)
Lemma scan_digits_lower (base : N) (s : string) :
  forall p acc cnt,
    Py.scan_digits base (Py.lower s) p acc cnt =
    match Py.scan_digits base s p acc cnt with
    | Some (v, k, rest) => Some (v, k, Py.lower rest)
    | None => None
    end.
Proof.
  induction s as [|c r IH]; intros p acc cnt.
  - cbn. destruct p; reflexivity.
  - cbn [Py.lower Py.scan_digits]. rewrite underscore_to_lower, digit_value_to_lower.
    destruct (Ascii.eqb c "_").
    + destruct p; [reflexivity | apply IH].
    + destruct (Py.digit_value c) as [d|].
      * destruct (d <? base)%N; [apply IH | destruct p; reflexivity].
      * destruct p; reflexivity.
Qed.

Lemma int_body_lower (base : N) (s : string) :
  Py.int_body base (Py.lower s) = Py.int_body base s.
Proof.
  unfold Py.int_body. rewrite scan_digits_lower.
  assert (Hs : Py.startswith "_" (Py.lower s) = Py.startswith "_" s).
  { destruct s as [|c r]; [reflexivity|]. cbn [Py.lower Py.startswith].
    now rewrite (Ascii.eqb_sym "_"), underscore_to_lower, (Ascii.eqb_sym c). }
  rewrite Hs. destruct (Py.startswith "_" s); [reflexivity|].
  destruct (Py.scan_digits base s false 0 0) as [[[v k] rest]|]; [|reflexivity].
  destruct k; [reflexivity|].
  destruct (negb (Py.is_pow2_base base) && _); [reflexivity|].
  rewrite lstrip_lower. destruct (Py.lstrip rest); reflexivity.
Qed.

Lemma int_base0_prefixed (body : string) :
  Py.int_base0 (String "0" (String "x" body)) =
  option_map Z.of_N (Py.int_body 16 (Py.skip_underscore body)).
Proof. reflexivity. Qed.

Lemma skip_underscore_lower (s : string) :
  Py.skip_underscore (Py.lower s) = Py.lower (Py.skip_underscore s).
Proof.
  destruct s as [|c r]; [reflexivity|]. cbn [Py.lower Py.skip_underscore].
  rewrite underscore_to_lower. destruct (Ascii.eqb c "_"); reflexivity.
Qed.

(** X6 (letter case). Structuring does not look at the case of the
    letters after the [0x] prefix: a text and its lower-cased form
    structure to the same outcome, as bytes, as fixed-length data of any
    class and as an integer. The prefix itself is case-sensitive: [0X]
    is refused. *)
Theorem hex_letter_case_ignored (body : string) :
  _IntoBytesFromHex (JStr (String "0" (String "x" (Py.lower body)))) =
  _IntoBytesFromHex (JStr (String "0" (String "x" body)))
  /\ (forall k,
        _IntoTypedData k (JStr (String "0" (String "x" (Py.lower body)))) =
        _IntoTypedData k (JStr (String "0" (String "x" body))))
  /\ _IntoIntFromHex (JStr (String "0" (String "x" (Py.lower body)))) =
     _IntoIntFromHex (JStr (String "0" (String "x" body)))
  /\ _IntoBytesFromHex (JStr (String "0" (String "X" body))) = Fail NotHexData
  /\ _IntoIntFromHex (JStr (String "0" (String "X" body))) = Fail NotHexInteger.
Proof.
  assert (Hb : _IntoBytesFromHex (JStr (String "0" (String "x" (Py.lower body)))) =
               _IntoBytesFromHex (JStr (String "0" (String "x" body)))).
  { now rewrite !IntoBytesFromHex_prefixed, fromhex_lower. }
  split; [exact Hb|]. split; [|split; [|split; reflexivity]].
  - intros k. unfold _IntoTypedData. now rewrite Hb.
  - rewrite !IntoIntFromHex_prefixed, !int_base0_prefixed.
    now rewrite skip_underscore_lower, int_body_lower.
Qed.

(** *** Reading and writing again *)

(** X7 (normal form). What was structured from hexadecimal text is
    written back in normal form and read again as the same value: an
    integer that [_IntoIntFromHex] returned is written by [_AsIntToHex]
    as a text that [_IntoIntFromHex] returns it for; bytes that
    [_IntoBytesFromHex] returned are written by [_AsBytesToHex] as a
    text that structures to them again, and for a text without white
    space that is the text itself in lower case. *)
Theorem hex_text_normalised :
  (forall val n, _IntoIntFromHex val = Ok n ->
     exists j, _AsIntToHex (VInt n) = Ok j /\ _IntoIntFromHex j = Ok n)
  /\ (forall val bs, _IntoBytesFromHex val = Ok bs ->
        exists j, _AsBytesToHex (VBytes bs) = Ok j /\ _IntoBytesFromHex j = Ok bs)
  /\ (forall body bs, no_space body = true ->
        _IntoBytesFromHex (JStr (String "0" (String "x" body))) = Ok bs ->
        _AsBytesToHex (VBytes bs) = Ok (JStr (String "0" (String "x" (Py.lower body))))).
Proof.
  split; [|split].
  - intros val n H. exists (JStr (Py.hex n)). split; [reflexivity|].
    apply IntoIntFromHex_hex. eapply IntoIntFromHex_nonneg, H.
  - intros val bs _. eexists. split; [reflexivity|]. apply IntoBytesFromHex_hex.
  - intros body bs Hns H. rewrite IntoBytesFromHex_prefixed in H.
    destruct (Py.fromhex body) as [bs'|] eqn:E; [|discriminate]. injection H as <-.
    destruct (fromhex_no_space_inv body Hns bs' E) as [Hall Hev].
    destruct (fromhex_all_hex body Hall Hev) as (bs & Hbs & Hhex).
    rewrite E in Hbs. injection Hbs as <-. cbn [_AsBytesToHex String.append].
    now rewrite Hhex.
Qed.

(** *** Wire names *)

Lemma no_underscore_append (a b : string) :
  no_underscore (String.append a b) = no_underscore a && no_underscore b.
Proof.
  induction a as [|c r IH]; [reflexivity|]. cbn [String.append no_underscore].
  now rewrite IH, andb_assoc.
Qed.

Lemma underscore_to_upper (c : ascii) :
  Ascii.eqb (Py.to_upper c) "_" = Ascii.eqb c "_".
Proof.
  apply eqb_prop.
  apply (ascii_all (fun c => Bool.eqb (Ascii.eqb (Py.to_upper c) "_") (Ascii.eqb c "_"))).
  vm_compute. reflexivity.
Qed.

Lemma no_underscore_lower (s : string) : no_underscore (Py.lower s) = no_underscore s.
Proof.
  induction s as [|c r IH]; [reflexivity|]. cbn [Py.lower no_underscore].
  now rewrite underscore_to_lower, IH.
Qed.

Lemma no_underscore_capitalize (s : string) :
  no_underscore (Py.capitalize s) = no_underscore s.
Proof.
  destruct s as [|c r]; [reflexivity|]. cbn [Py.capitalize no_underscore].
  now rewrite underscore_to_upper, no_underscore_lower.
Qed.

Lemma no_underscore_split (s : string) :
  forallb no_underscore (Py.split "_" s) = true.
Proof.
  induction s as [|c r IH]; [reflexivity|]. cbn [Py.split].
  destruct (Ascii.eqb c "_") eqn:E; [exact IH|].
  destruct (Py.split "_" r) as [|h t]; cbn [forallb no_underscore] in *.
  - now rewrite E.
  - now rewrite E.
Qed.

Lemma no_underscore_join (parts : list string) :
  forallb no_underscore parts = true -> no_underscore (Py.join parts) = true.
Proof.
  induction parts as [|p r IH]; [reflexivity|]. cbn [forallb]. intros H.
  apply andb_true_iff in H as [Hp Hr]. unfold Py.join in *. cbn [fold_right].
  now rewrite no_underscore_append, Hp, IH.
Qed.

Lemma split_no_underscore (s : string) :
  no_underscore s = true -> Py.split "_" s = [s].
Proof.
  induction s as [|c r IH]; [reflexivity|]. cbn [no_underscore Py.split].
  intros H. apply andb_true_iff in H as [Hc Hr]. apply negb_true_iff in Hc.
  now rewrite Hc, (IH Hr).
Qed.

Lemma removesuffix_no_suffix (s : string) :
  ends_with_underscore s = false -> Py.removesuffix_underscore s = s.
Proof.
  induction s as [|c r IH]; [reflexivity|].
  cbn [ends_with_underscore Py.removesuffix_underscore]. destruct r as [|d r'].
  - now intros ->.
  - intros H. now rewrite (IH H).
Qed.

Lemma removesuffix_append (s : string) :
  Py.removesuffix_underscore (String.append s "_") = s.
Proof.
  induction s as [|c r IH]; [reflexivity|].
  cbn [String.append Py.removesuffix_underscore].
  destruct r as [|d r'].
  - reflexivity.
  - cbn [String.append] in *. now rewrite IH.
Qed.

Lemma no_underscore_no_suffix (s : string) :
  no_underscore s = true -> ends_with_underscore s = false.
Proof.
  induction s as [|c r IH]; [reflexivity|]. cbn [no_underscore ends_with_underscore].
  intros H. apply andb_true_iff in H as [Hc Hr]. apply negb_true_iff in Hc.
  destruct r; [exact Hc | now apply IH].
Qed.

(** X8 (wire names). A wire name never contains an underscore; a field
    name without underscores is its own wire name; and a name and the
    same name with an underscore appended (as in [from_]) have the same
    wire name, so the translation cannot be undone. *)
Theorem wire_name_shape (name : string) :
  no_underscore (_to_camel_case name) = true
  /\ (no_underscore name = true -> _to_camel_case name = name)
  /\ (ends_with_underscore name = false ->
      _to_camel_case (String.append name "_") = _to_camel_case name).
Proof.
  split; [|split].
  - unfold _to_camel_case.
    pose proof (no_underscore_split (Py.removesuffix_underscore name)) as H.
    destruct (Py.split "_" (Py.removesuffix_underscore name)) as [|p ps];
      cbn [hd tl forallb] in *; [reflexivity|].
    apply andb_true_iff in H as [Hp Hps].
    rewrite no_underscore_append, Hp. apply no_underscore_join.
    rewrite forallb_forall in *. intros x Hx.
    apply in_map_iff in Hx as (y & <- & Hy).
    rewrite no_underscore_capitalize. now apply Hps.
  - intros H. unfold _to_camel_case.
    rewrite removesuffix_no_suffix by now apply no_underscore_no_suffix.
    rewrite split_no_underscore by exact H. cbn [hd tl map Py.join fold_right].
    apply append_empty_r.
  - intros H. unfold _to_camel_case.
    now rewrite removesuffix_append, removesuffix_no_suffix.
Qed.

(** *** Fixed-length data on input *)

Lemma TypedDataClass_eqb_refl (k : TypedDataClass) : TypedDataClass_eqb k k = true.
Proof. destruct k; reflexivity. Qed.

Lemma TypedData_new_ok (k : TypedDataClass) (bs : list byte) (v : value) :
  TypedData_new (E := StructuringError) k bs = Ok v ->
  v = VData k bs /\ List.length bs = _length k.
Proof.
  unfold TypedData_new. destruct (Nat.eqb _ _) eqn:E; [|discriminate].
  intros [= <-]. apply Nat.eqb_eq in E. now split.
Qed.

(** X9 (fixed-length data read). [_IntoTypedData] is decided by
    [_IntoBytesFromHex] and the length alone: it yields an instance
    exactly when the text decodes to as many bytes as the class asked
    for has, and the instance is of that class with those bytes; text
    that is no [0x] string or does not decode fails with the codec's
    error before any constructor runs, and only a decoded sequence of
    another length reaches the constructor's error. *)
Theorem typed_data_structuring (k : TypedDataClass) (val : JSON) :
  (forall v, _IntoTypedData k val = Ok v <->
             exists bs, _IntoBytesFromHex val = Ok bs
                        /\ List.length bs = _length k /\ v = VData k bs)
  /\ (forall e, _IntoTypedData k val = Fail e <-> _IntoBytesFromHex val = Fail e)
  /\ (forall x, _IntoTypedData k val = Raise x <->
                exists bs, _IntoBytesFromHex val = Ok bs
                           /\ List.length bs <> _length k
                           /\ x = ValidationError (_length k) (List.length bs)).
Proof.
  unfold _IntoTypedData.
  assert (Hnr : forall x, _IntoBytesFromHex val <> Raise x).
  { intros x. unfold _IntoBytesFromHex. destruct val; try discriminate.
    destruct (negb _); [discriminate|]. destruct (Py.fromhex _); discriminate. }
  destruct (_IntoBytesFromHex val) as [bs|e|x] eqn:E; cbn [bind];
    [|clear Hnr|now destruct (Hnr x)].
  - unfold TypedData_new. destruct (Nat.eqb (List.length bs) (_length k)) eqn:El.
    + apply Nat.eqb_eq in El. split; [|split].
      * intros v. split.
        -- intros [= <-]. eauto.
        -- intros (bs' & [= <-] & _ & ->). reflexivity.
      * intros e. split; discriminate.
      * intros x. split; [discriminate|]. intros (bs' & [= <-] & Hne & _). lia.
    + apply Nat.eqb_neq in El. split; [|split].
      * intros v. split; [discriminate|]. intros (bs' & [= <-] & Hl & _). lia.
      * intros e. split; discriminate.
      * intros x. split.
        -- intros [= <-]. eauto.
        -- intros (bs' & [= <-] & _ & ->). reflexivity.
  - split; [|split].
    + intros v. split; [discriminate|]. intros (bs & H & _). discriminate H.
    + intros e'. split; intros [= ->]; reflexivity.
    + intros x. split; [discriminate|]. intros (bs & H & _). discriminate H.
Qed.


(** *** Block references *)

Lemma structure_OptionalBlock (val : JSON) :
  structure OptionalBlock val =
  IntoUnion (fun t x => STRUCTURER 998 (structure_into 998) t x) [TNone; TInt; TBlockLabel]
    val.
Proof. reflexivity. Qed.

(** X10 (block references). A block reference ([None | int |
    BlockLabel], as the filter parameters declare it) is structured from
    [null], from one of the five label strings, or from hexadecimal
    text, and from nothing else: what comes out is [None] for [null],
    the label for its string and a non-negative integer for text the
    integer handler reads; a label is written as its string and an
    integer as its hexadecimal text. *)
Theorem block_reference_structuring :
  structure OptionalBlock JNull = Ok VNone
  /\ (forall l, structure OptionalBlock (JStr (BlockLabel_value l)) = Ok (VLabel l))
  /\ (forall val n, _IntoIntFromHex val = Ok n -> structure OptionalBlock val = Ok (VInt n))
  /\ (forall val v, structure OptionalBlock val = Ok v ->
        (val = JNull /\ v = VNone)
        \/ (exists n, _IntoIntFromHex val = Ok n /\ (0 <= n)%Z /\ v = VInt n)
        \/ (exists l, val = JStr (BlockLabel_value l) /\ v = VLabel l))
  /\ (forall cs l,
        unstructure cs (VLabel l) (Some OptionalBlock) = Ok (JStr (BlockLabel_value l)))
  /\ (forall cs n,
        unstructure cs (VInt n) (Some OptionalBlock) = Ok (JStr (Py.hex n))).
Proof.
  split; [reflexivity|]. split; [|split; [|split; [|split]]].
  - intros l. destruct l; reflexivity.
  - intros val n H. rewrite structure_OptionalBlock. cbn [IntoUnion STRUCTURER].
    assert (Hp : prefixed val = true).
    { destruct (prefixed val) eqn:E; [reflexivity|].
      rewrite (prefixed_false_int _ E) in H. discriminate. }
    destruct val; try discriminate Hp. cbn [IntoNone]. now rewrite H.
  - intros val v H. rewrite structure_OptionalBlock in H. cbn [IntoUnion STRUCTURER] in H.
    destruct (IntoNone val) as [v0| |] eqn:En.
    + injection H as <-. destruct val; try discriminate En. injection En as <-.
      left. now split.
    + destruct (_IntoIntFromHex val) as [n| |] eqn:E; cbn [bind] in H;
        try discriminate H.
      * injection H as <-. right. left. exists n.
        split; [reflexivity|]. split; [eapply IntoIntFromHex_nonneg, E | reflexivity].
      * unfold _IntoBlockLabel in H.
        destruct (BlockLabel_lookup val) as [l|] eqn:El.
        -- injection H as <-. right. right. exists l. split; [|reflexivity].
           now apply BlockLabel_lookup_iff.
        -- destruct (repr_raises 998 val) as [[]|]; discriminate H.
    + destruct val; discriminate En.
  - intros cs l. reflexivity.
  - intros cs n. reflexivity.
Qed.

(* ================================================================== *)
(** ** What structuring yields *)
(* ================================================================== *)

Lemma kind_eqb_eq (a b : kind) : kind_eqb a b = true -> a = b.
Proof.
  destruct a, b; cbn [kind_eqb]; try discriminate; try reflexivity.
  - intros H. now rewrite (TypedDataClass_eqb_eq _ _ H).
  - intros H. apply String.eqb_eq in H. now subst.
Qed.

Lemma has_kind_In (k : kind) (l : list kind) : In k l -> has_kind k l = true.
Proof.
  intros H. unfold has_kind. apply existsb_exists. exists k. split; [exact H|].
  destruct k; cbn [kind_eqb]; try reflexivity.
  - apply TypedDataClass_eqb_refl.
  - apply String.eqb_refl.
Qed.

(** An instance of a declared type has one of the type's classes. *)
Lemma isinstance_kind (n : nat) :
  forall t v, (ty_depth t < n)%nat -> isinstance t v = true -> In (kind_of v) (kinds t).
Proof.
  induction n as [|n IH]; intros t v Hd H; [lia|].
  destruct t as [| | | | | | |k| |elem|variants|cls fields];
    try (destruct v; try discriminate H; left; reflexivity).
  - destruct v; try discriminate H. cbn [isinstance] in H.
    apply TypedDataClass_eqb_eq in H. subst. left. reflexivity.
  - cbn [isinstance] in H. apply existsb_exists in H as (t & Hin & Ht).
    cbn [kinds]. apply in_flat_map. exists t. split; [exact Hin|].
    apply IH; [|exact Ht]. pose proof (variant_depth _ _ Hin). lia.
  - destruct v; try discriminate H. cbn [isinstance] in H.
    apply String.eqb_eq in H. subst. left. reflexivity.
Qed.

(** A valid instance is an instance. *)
Lemma valid_isinstance (n : nat) :
  forall t v, (ty_depth t < n)%nat -> valid t v = true -> isinstance t v = true.
Proof.
  induction n as [|n IH]; intros t v Hd H; [lia|].
  destruct t as [| | | | | | |k| |elem|variants|cls fields];
    try (destruct v; try discriminate H; reflexivity).
  - destruct v; try discriminate H. cbn [valid] in H. cbn [isinstance].
    now apply andb_true_iff in H as [H _].
  - destruct v; try discriminate H. cbn [valid] in H. cbn [isinstance].
    rewrite forallb_forall in *. intros x Hx. apply IH; [cbn [ty_depth] in Hd; lia|].
    now apply H.
  - apply valid_union in H as (t & Hf & _). apply find_some in Hf as [Hin Ht].
    cbn [isinstance]. apply existsb_exists. eauto.
  - destruct v; try discriminate H. cbn [valid] in H. cbn [isinstance].
    now apply andb_true_iff in H as [H _].
Qed.

Lemma instances_apart_cases (a b : ty) :
  instances_apart a b = true ->
  (exists x y, a = TTuple x /\ b = TTuple y /\ instances_apart x y = true)
  \/ forallb (fun k => negb (has_kind k (kinds a))) (kinds b) = true.
Proof.
  destruct a; try (intros H; right; exact H).
  destruct b; try (intros H; right; exact H).
  intros H. left. eauto.
Qed.

(** A valid instance of a type set apart from [a] is no instance of
    [a], unless it is a valid one. *)
Lemma instances_apart_sound (n : nat) :
  forall a b v,
    (ty_depth a < n)%nat -> (ty_depth b < n)%nat ->
    instances_apart a b = true -> valid b v = true ->
    isinstance a v = false \/ valid a v = true.
Proof.
  induction n as [|n IH]; intros a b v Ha Hb Hap Hv; [lia|].
  destruct (instances_apart_cases _ _ Hap) as [(x & y & -> & -> & Hxy)|Hk].
  - destruct v; try discriminate Hv. cbn [valid] in Hv. cbn [isinstance valid].
    cbn [ty_depth] in Ha, Hb. rewrite forallb_forall in Hv.
    induction items as [|i r IHr]; [now right|]. cbn [forallb].
    destruct (IH x y i ltac:(lia) ltac:(lia) Hxy (Hv i (or_introl eq_refl))) as [Hi|Hi];
      rewrite Hi; cbn [andb]; [now left|].
    destruct (IHr (fun z Hz => Hv z (or_intror Hz))) as [Hr|Hr].
    + left. destruct (isinstance x i); [exact Hr | reflexivity].
    + right. exact Hr.
  - left. destruct (isinstance a v) eqn:E; [|reflexivity]. exfalso.
    apply (isinstance_kind (S n)) in E; [|lia].
    apply (valid_isinstance (S n)) in Hv; [|lia].
    apply (isinstance_kind (S n)) in Hv; [|lia].
    rewrite forallb_forall in Hk. specialize (Hk _ Hv).
    rewrite (has_kind_In _ _ E) in Hk. discriminate Hk.
Qed.

Lemma structure_elems_valid (g : JSON -> SResult) (check : value -> bool)
    (items : list JSON) :
  (forall x v, In x items -> g x = Ok v -> check v = true) ->
  forall index vs, structure_elems g index items = Ok vs -> forallb check vs = true.
Proof.
  induction items as [|x r IH]; intros H index vs Hs; cbn [structure_elems] in Hs.
  - now injection Hs as <-.
  - destruct (g x) as [v| |] eqn:E; try discriminate Hs. cbn [wrap bind] in Hs.
    destruct (structure_elems g (S index) r) as [vs'| |] eqn:Er; try discriminate Hs.
    cbn [bind] in Hs. injection Hs as <-. cbn [forallb].
    rewrite (H x v (or_introl eq_refl) E).
    exact (IH (fun y w Hy => H y w (or_intror Hy)) _ _ Er).
Qed.

Lemma structure_fields_valid (g : ty -> JSON -> SResult) (fields : list field) (d : dict) :
  (forall name t default x v,
     In (Field name t default) fields -> g t x = Ok v -> valid t v = true) ->
  (forall name t dv, In (Field name t (Some dv)) fields -> valid t dv = true) ->
  forall attrs,
    structure_fields g _to_camel_case fields d = Ok attrs ->
    attrs_match valid fields attrs = true.
Proof.
  induction fields as [|[name t default] r IH]; intros Hg Hdv attrs H;
    cbn [structure_fields] in H.
  - now injection H as <-.
  - destruct (match dict_get (_to_camel_case name) d with
              | Some x => wrap (FieldError name) (g t x)
              | None => match default with
                        | Some dv => Ok dv
                        | None => Fail (MissingField name)
                        end
              end) as [v| |] eqn:Ev; try discriminate H. cbn [bind] in H.
    destruct (structure_fields g _to_camel_case r d) as [vs| |] eqn:Er;
      try discriminate H.
    cbn [bind] in H. injection H as <-. cbn [attrs_match].
    rewrite String.eqb_refl.
    rewrite (IH (fun n' t' d' x' v' Hin => Hg n' t' d' x' v' (or_intror Hin))
                (fun n' t' dv' Hin => Hdv n' t' dv' (or_intror Hin)) vs eq_refl).
    rewrite andb_true_r. cbn [andb].
    destruct (dict_get (_to_camel_case name) d) as [x|].
    + destruct (g t x) as [v'| |] eqn:Eg; try discriminate Ev. injection Ev as <-.
      exact (Hg name t default x v' (or_introl eq_refl) Eg).
    + destruct default as [dv|]; [|discriminate Ev]. injection Ev as <-.
      exact (Hdv name t dv (or_introl eq_refl)).
Qed.

Lemma IntoUnion_valid (n : nat) (g : ty -> JSON -> SResult) (j : JSON) (v : value) :
  forall variants,
    (forall t, In t variants -> (ty_depth t < n)%nat) ->
    ordered_instances_apart variants = true ->
    (forall t w, In t variants -> g t j = Ok w -> valid t w = true) ->
    IntoUnion g variants j = Ok v ->
    first_match (fun t => isinstance t v) (fun t => valid t v) variants = true.
Proof.
  induction variants as [|t r IH]; intros Hd Hord Hg H; [discriminate H|].
  cbn [IntoUnion] in H. cbn [ordered_instances_apart] in Hord.
  apply andb_true_iff in Hord as [Ht Hr]. cbn [first_match].
  destruct (g t j) as [w| |] eqn:E; try discriminate H.
  - injection H as ->. pose proof (Hg t v (or_introl eq_refl) E) as Hv.
    rewrite (valid_isinstance n t v (Hd t (or_introl eq_refl)) Hv). exact Hv.
  - pose proof (IH (fun x Hx => Hd x (or_intror Hx)) Hr
                  (fun x w Hx => Hg x w (or_intror Hx)) H) as Hrest.
    destruct (isinstance t v) eqn:Ei; [|exact Hrest].
    rewrite first_match_find in Hrest.
    destruct (find (fun t0 => isinstance t0 v) r) as [t'|] eqn:Ef; [|discriminate Hrest].
    apply find_some in Ef as [Hin _]. rewrite forallb_forall in Ht.
    destruct (instances_apart_sound n t t' v (Hd t (or_introl eq_refl))
                (Hd t' (or_intror Hin)) (Ht t' Hin) Hrest) as [Hc|Hc];
      [congruence | exact Hc].
Qed.

Lemma well_declared_field (cls : string) (fields : list field) (name : string) (t : ty)
    (default : option value) :
  well_declared (TDataclass cls fields) = true ->
  In (Field name t default) fields ->
  well_declared t = true
  /\ match default with Some dv => valid t dv = true | None => True end.
Proof.
  cbn [well_declared]. intros H Hin. rewrite forallb_forall in H.
  specialize (H _ Hin). cbn beta iota in H. apply andb_true_iff in H as [Hw Hv].
  split; [exact Hw|]. destruct default; [exact Hv | exact I].
Qed.

(** Structuring yields valid instances, at every declared type. *)
Lemma structure_valid (n : nat) :
  forall t j v,
    well_declared t = true -> structure_into n t j = Ok v -> valid t v = true.
Proof.
  induction n as [|n IH]; intros t j v Hw H; [discriminate H|].
  cbn [structure_into] in H.
  destruct t as [| | | | | | |k| |elem|variants|cls fields]; cbn [STRUCTURER] in H.
  - destruct (_IntoIntFromHex j) as [z| |] eqn:E; try discriminate H.
    cbn [bind] in H. injection H as <-. cbn [valid].
    apply Z.leb_le. eapply IntoIntFromHex_nonneg, E.
  - destruct j; try discriminate H. now injection H as <-.
  - destruct j; try discriminate H. now injection H as <-.
  - destruct (_IntoBytesFromHex j) as [bs| |]; try discriminate H.
    cbn [bind] in H. now injection H as <-.
  - destruct j; try discriminate H. now injection H as <-.
  - destruct j; try discriminate H. now injection H as <-.
  - unfold _IntoBlockLabel in H. destruct (BlockLabel_lookup j) as [l|].
    + now injection H as <-.
    + destruct (repr_raises n j) as [[]|]; discriminate H.
  - unfold _IntoTypedData in H.
    destruct (_IntoBytesFromHex j) as [bs| |]; try discriminate H. cbn [bind] in H.
    apply TypedData_new_ok in H as [-> Hl]. cbn [valid].
    rewrite TypedDataClass_eqb_refl. now apply Nat.eqb_eq.
  - unfold _IntoTypedQuantity in H.
    destruct (_IntoIntFromHex j) as [z| |] eqn:E; try discriminate H. cbn [bind] in H.
    unfold Amount_new in H. destruct (z <? 0)%Z; [discriminate H|]. injection H as <-.
    cbn [valid]. apply Z.leb_le. eapply IntoIntFromHex_nonneg, E.
  - unfold IntoTuple in H. destruct j; try discriminate H.
    destruct (structure_elems (structure_into n elem) 0 items) as [vs| |] eqn:E;
      try discriminate H.
    cbn [bind] in H. injection H as <-. cbn [valid]. cbn [well_declared] in Hw.
    eapply structure_elems_valid; [|exact E].
    intros x w _ Hx. now apply (IH elem x w).
  - cbn [well_declared] in Hw. apply andb_true_iff in Hw as [Hws Hord].
    rewrite forallb_forall in Hws. cbn [valid].
    apply (IntoUnion_valid (S (ty_depth (TUnion variants))) (structure_into n) j v);
      [| exact Hord | | exact H].
    + intros t Ht. pose proof (variant_depth _ _ Ht). lia.
    + intros t w Ht Hs. apply (IH t j w (Hws t Ht) Hs).
  - assert (E : forall x, IntoDataclassFromMapping (structure_into n) _to_camel_case cls
                            fields x = Ok v ->
                          valid (TDataclass cls fields) v = true).
    { intros x Hx. unfold IntoDataclassFromMapping in Hx. destruct x; try discriminate Hx.
      destruct (structure_fields _ _ _ _) as [attrs| |] eqn:Ef; try discriminate Hx.
      cbn [bind] in Hx. injection Hx as <-. cbn [valid]. rewrite String.eqb_refl.
      cbn [andb]. eapply structure_fields_valid; [| |exact Ef].
      - intros name t default y w Hin Hy.
        apply (IH t y w); [|exact Hy]. eapply well_declared_field; eauto.
      - intros name t dv Hin.
        now destruct (well_declared_field cls fields name t (Some dv) Hw Hin). }
    destruct (typed_tx_number cls); [|now apply (E j)].
    unfold _IntoTypedTx in H. destruct j; try discriminate H.
    destruct (negb _); [discriminate H|].
    destruct (structure_into n TInt _) as [tx| |]; try discriminate H. cbn [bind] in H.
    destruct (differs_from z tx); [destruct (formats tx); discriminate H|].
    now apply (E (JDict entries)).
Qed.

Lemma schema_well_declared (R : ty) : In R schema -> well_declared R = true.
Proof.
  intros H.
  assert (Hall : forallb well_declared schema = true) by (vm_compute; reflexivity).
  rewrite forallb_forall in Hall. now apply Hall.
Qed.

(** X12 (what structuring yields).  Whatever mapping a record of the
    schema is structured from, the instance that comes out is a valid
    one: every attribute is there and is of its field's type, the
    integers and quantities are non-negative and fixed-length data has
    the length of its class; so it is for every declared type of the
    schema's kind.  And what was structured is written and read again
    as itself: unstructuring the instance succeeds, and structuring
    the result gives the same instance back. *)
Theorem structured_is_valid :
  (forall R j v, In R schema -> structure R j = Ok v -> valid R v = true)
  /\ (forall t j v, well_declared t = true -> structure t j = Ok v -> valid t v = true)
  /\ (forall cs R j v,
        In R schema -> structure R j = Ok v ->
        exists j', unstructure cs v None = Ok j' /\ structure R j' = Ok v).
Proof.
  assert (H : forall t j v, well_declared t = true -> structure t j = Ok v ->
                            valid t v = true).
  { intros t j v. unfold structure. apply structure_valid. }
  split; [|split; [exact H|]].
  - intros R j v HR. apply H, schema_well_declared, HR.
  - intros cs R j v HR Hs.
    pose proof (H R j v (schema_well_declared R HR) Hs) as Hv.
    destruct (schema_well_formed R HR) as [Hd Hwf].
    unfold unstructure, structure. rewrite (schema_type_of R v HR Hv).
    now apply roundtrip_at.
Qed.

(* ================================================================== *)
(** ** Instances *)
(* ================================================================== *)

(** The round trip of a type-2 transaction, its address written in
    lower case. *)
Lemma structure_unstructure_roundtrip_witness :
  In Type2Transaction schema
  /\ valid Type2Transaction sample_transaction = true
  /\ exists j,
       unstructure lower_case_rule sample_transaction None = Ok j
       /\ structure Type2Transaction j = Ok sample_transaction.
Proof.
  assert (HR : In Type2Transaction schema) by (unfold schema; do 5 right; left; reflexivity).
  split; [exact HR|]. split; [reflexivity|].
  apply (structure_unstructure_roundtrip lower_case_rule Type2Transaction sample_transaction HR).
  reflexivity.
Defined.

(** The block number of filter parameters from block 5 on, under a
    field declared [None | int | BlockLabel], is on the wire as
    ["0x5"]. *)
Lemma error_code_is_plain_witness :
  exists d,
    unstructure lower_case_rule sample_filter None = Ok (JDict d)
    /\ dict_get "fromBlock" d = Some (JStr "0x5").
Proof.
  destruct (error_code_is_plain lower_case_rule) as (_ & H & _).
  destruct (H FilterParams sample_filter (VInt 5) "from_block" OptionalBlock (Some VNone) 5%Z)
    as (d & Hu & _ & Hget).
  - unfold schema. do 8 right. left. reflexivity.
  - reflexivity.
  - left. reflexivity.
  - intros [E _]. discriminate E.
  - reflexivity.
  - reflexivity.
  - exists d. split; [exact Hu|]. apply Hget. discriminate.
Defined.
